(** * Polygon.io instruction scripts: a shallow embedding and its properties

    The development embeds the executable parts of [polygon_instructions.py]
    (option-ticker lookup, the asynchronous client, the WebSocket message
    dispatcher, the expiry-date fetcher with its [next_url] cursor loop, and
    the two documented snippets for price selection and pagination) and of
    [scripts/fetch_financials.py], and proves the properties the
    specification states about them.

    Conventions.
    - Decoded JSON is the Python value [json.loads] or [response.json()]
      returns; [JNull] is Python's [None]. A number is an [int] of any size
      or a [float], a binary64 value with its infinities and NaN; the
      arithmetic rounds to nearest, ties to even, as the interpreter does.
    - A string is the sequence of its UTF-8 bytes, whose order is the
      order of the code points.
    - An f-string is kept as its pieces (literal text and interpolated
      values) instead of the rendered text, so [str()] of numbers, lists and
      dicts need not be modelled.
    - Effects (printing, requests, file writes) are threaded through a state
      and exception monad [py]. Only exceptions deriving from [Exception]
      are modelled; printing and writing a file do not fail.
    - A loop that need not end takes fuel, one unit per turn; running out of
      fuel is an outcome of its own, which no [except] catches. *)

From Stdlib Require Import ZArith String Ascii Lia SpecFloat.
From stdpp Require Import base option list gmap strings sorting.

Set Warnings "-register-all,-clear-no-such-hyp".

(** ** Python values *)

Definition float := spec_float.

Inductive number :=
| Int (z : Z)
| Float (x : float).

Inductive json : Type :=
| JNull
| JBool (b : bool)
| JNum (n : number)
| JStr (s : string)
| JList (l : list json)
| JObj (m : gmap string json).

(** Truth value of an object, as tested by [if v:] and [while v:]. *)
Definition truthy (v : json) : bool :=
  match v with
  | JNull => false
  | JBool b => b
  | JNum (Int z) => negb (Z.eqb z 0)
  | JNum (Float (S754_zero _)) => false
  | JNum (Float _) => true
  | JStr s => negb (String.eqb s EmptyString)
  | JList l => negb (Nat.eqb (length l) 0)
  | JObj m => negb (Nat.eqb (size m) 0)
  end.

(** [v == s] for a string literal [s]. *)
Definition str_eq (v : json) (s : string) : bool :=
  match v with
  | JStr t => String.eqb t s
  | _ => false
  end.

(** [v is None] *)
Definition is_None (v : json) : bool :=
  match v with
  | JNull => true
  | _ => false
  end.

(** [isinstance(v, dict)] *)
Definition is_dict (v : json) : bool :=
  match v with
  | JObj _ => true
  | _ => false
  end.

(** ** f-strings and exceptions *)

Inductive exn_class :=
| ValueError
| TypeError
| AttributeError
| RuntimeError
| OtherError (name : string).

(** A piece of an f-string: literal text, an interpolated value [{v}], or
    the text [str(e)] of an exception raised by the interpreter or by a
    library, whose wording is not modelled. *)
Inductive piece :=
| Lit (s : string)
| Fmt (v : json)
| ExcText (c : exn_class).

Definition fstring := list piece.

(** An exception is either raised by the source with its message, or by the
    interpreter or a library. *)
Inductive exn :=
| Raised (c : exn_class) (msg : fstring)
| Builtin (c : exn_class).

Definition class_of (e : exn) : exn_class :=
  match e with
  | Raised c _ => c
  | Builtin c => c
  end.

(** [str(e)] *)
Definition str_exn (e : exn) : fstring :=
  match e with
  | Raised _ msg => msg
  | Builtin c => [ExcText c]
  end.

(** A rendered piece is empty only for the empty literal and for the empty
    string value; [str(None)], numbers, lists and dicts all render to
    non-empty text. *)
Definition piece_nonempty (p : piece) : bool :=
  match p with
  | Lit s => negb (String.eqb s EmptyString)
  | Fmt (JStr s) => negb (String.eqb s EmptyString)
  | Fmt _ => true
  | ExcText _ => true
  end.

(** Truth value of a rendered f-string. The text of an interpreter
    exception is taken to be non-empty. *)
Definition fstring_truthy (f : fstring) : bool := existsb piece_nonempty f.

(** ** The monad of effects and exceptions *)

Record effects := Effects {
  stdout : list fstring;    (* lines printed *)
  stderr : list fstring;    (* lines printed to sys.stderr *)
  requests : list fstring;  (* URLs requested, oldest first *)
  files : list (string * json)  (* JSON documents written, oldest first *)
}.

Definition no_effects : effects := Effects [] [] [] [].

(** [OutOfFuel] marks a loop that is still running when the fuel of the
    embedding is used up; no handler catches it. *)
Inductive result (A : Type) :=
| Ok (a : A)
| Raise (e : exn)
| OutOfFuel.
Arguments Ok {A} a.
Arguments Raise {A} e.
Arguments OutOfFuel {A}.

Definition py (A : Type) : Type := effects → result A * effects.

Definition ret {A} (a : A) : py A := λ w, (Ok a, w).

Definition bind {A B} (m : py A) (k : A → py B) : py B :=
  λ w, match m w with
       | (Ok a, w') => k a w'
       | (Raise e, w') => (Raise e, w')
       | (OutOfFuel, w') => (OutOfFuel, w')
       end.

Definition raise {A} (e : exn) : py A := λ w, (Raise e, w).

Definition out_of_fuel {A} : py A := λ w, (OutOfFuel, w).

(** [try: body / except Exception as e: handler e] *)
Definition try_except {A} (body : py A) (handler : exn → py A) : py A :=
  λ w, match body w with
       | (Raise e, w') => handler e w'
       | r => r
       end.

Notation "'let*' x ':=' m 'in' k" := (bind m (λ x, k))
  (at level 10, x name, m at level 100, k at level 200).
Notation "m ';;' k" := (bind m (λ _, k))
  (at level 100, k at level 200, right associativity).

Definition print (line : fstring) : py unit :=
  λ w, (Ok tt, Effects (stdout w ++ [line]) (stderr w) (requests w) (files w)).

Definition print_stderr (line : fstring) : py unit :=
  λ w, (Ok tt, Effects (stdout w) (stderr w ++ [line]) (requests w) (files w)).

Definition log_request (url : fstring) : py unit :=
  λ w, (Ok tt, Effects (stdout w) (stderr w) (requests w ++ [url]) (files w)).

Definition write_file (path : string) (doc : json) : py unit :=
  λ w, (Ok tt, Effects (stdout w) (stderr w) (requests w) (files w ++ [(path, doc)])).

(** An exception-only computation run inside [py]. *)
Definition lift {A} (r : exn + A) : py A :=
  match r with
  | inl e => raise e
  | inr a => ret a
  end.

(** [for x in xs: acc = f acc x] *)
Fixpoint for_each {A B} (f : B → A → py B) (xs : list A) (acc : B) : py B :=
  match xs with
  | [] => ret acc
  | x :: xs' => let* acc' := f acc x in for_each f xs' acc'
  end.

(** ** Dictionaries and iteration *)

(** [v.get(key, default)]: only a dict has the method. *)
Definition get (v : json) (key : string) (dflt : json) : py json :=
  match v with
  | JObj m => ret (default dflt (m !! key))
  | _ => raise (Builtin AttributeError)
  end.

(** The items [for x in v] runs over. A string yields its characters and a
    dict its keys (in an order the map does not record); [None], booleans
    and numbers are not iterable. *)
Definition iter (v : json) : py (list json) :=
  match v with
  | JList l => ret l
  | JStr s => ret ((λ c, JStr (String c EmptyString)) <$> list_ascii_of_string s)
  | JObj m => ret (JStr <$> (map_to_list m).*1)
  | _ => raise (Builtin TypeError)
  end.

(** ** [datetime.strptime(s, "%Y-%m-%d")] *)

Record datetime := Datetime { year : nat; month : nat; day : nat }.

(** The code point a text starts with, read from its UTF-8 bytes. *)
Definition continuation (c : ascii) : option N :=
  let n := N_of_ascii c in
  if (128 <=? n)%N && (n <? 192)%N then Some (n - 128)%N else None.

Definition code_point (s : list ascii) : option (N * list ascii) :=
  match s with
  | [] => None
  | c :: rest =>
      let n := N_of_ascii c in
      if (n <? 128)%N then Some (n, rest)
      else if (194 <=? n)%N && (n <? 224)%N then
        match rest with
        | c1 :: rest' =>
            match continuation c1 with
            | Some x => Some (((n - 192) * 64 + x)%N, rest')
            | None => None
            end
        | _ => None
        end
      else if (224 <=? n)%N && (n <? 240)%N then
        match rest with
        | c1 :: c2 :: rest' =>
            match continuation c1, continuation c2 with
            | Some x, Some y =>
                let cp := (((n - 224) * 64 + x) * 64 + y)%N in
                if (2048 <=? cp)%N && negb ((55296 <=? cp)%N && (cp <? 57344)%N)
                then Some (cp, rest') else None
            | _, _ => None
            end
        | _ => None
        end
      else if (240 <=? n)%N && (n <? 245)%N then
        match rest with
        | c1 :: c2 :: c3 :: rest' =>
            match continuation c1, continuation c2, continuation c3 with
            | Some x, Some y, Some z =>
                let cp := ((((n - 240) * 64 + x) * 64 + y) * 64 + z)%N in
                if (65536 <=? cp)%N && (cp <? 1114112)%N then Some (cp, rest') else None
            | _, _, _ => None
            end
        | _ => None
        end
      else None
  end.

(** The decimal digits of Unicode 14.0 (category Nd), the database of
    CPython 3.11: sixty-six runs of ten code points, each run the digits 0
    to 9 of one script. These are the zeros. *)
Definition digit_zeros : list N :=
  [48; 1632; 1776; 1984; 2406; 2534; 2662; 2790; 2918; 3046; 3174; 3302; 3430; 3558;
   3664; 3792; 3872; 4160; 4240; 6112; 6160; 6470; 6608; 6784; 6800; 6992; 7088; 7232;
   7248; 42528; 43216; 43264; 43472; 43504; 43600; 44016; 65296; 66720; 68912; 69734;
   69872; 69942; 70096; 70384; 70736; 70864; 71248; 71360; 71472; 71904; 72016; 72784;
   73040; 73120; 92768; 92864; 93008; 120782; 120792; 120802; 120812; 120822; 123200;
   123632; 125264; 130032]%N.

(** The value [int] gives a decimal digit. *)
Definition decimal (cp : N) : option nat :=
  (λ zero, N.to_nat (cp - zero)) <$>
  List.find (λ zero, (zero <=? cp)%N && (cp <? zero + 10)%N) digit_zeros.

(** [\d] in a pattern for [str]: any decimal digit of Unicode. *)
Definition unicode_digit (s : list ascii) : option (nat * list ascii) :=
  match code_point s with
  | Some (cp, rest) => (λ d, (d, rest)) <$> decimal cp
  | None => None
  end.

(** An ASCII digit, the only kind a class such as [[0-9]] holds. *)
Definition digit (c : ascii) : option nat :=
  let n := nat_of_ascii c in
  if (48 <=? n) && (n <=? 57) then Some (n - 48) else None.

(** A digit in the class [[lo-hi]]. *)
Definition digit_in (lo hi : nat) (c : ascii) : option nat :=
  match digit c with
  | Some d => if (lo <=? d) && (d <=? hi) then Some d else None
  | None => None
  end.

(** [%Y] is [\d\d\d\d], and [int] reads the four digits. *)
Definition parse_Y (s : list ascii) : option (nat * list ascii) :=
  match unicode_digit s with
  | Some (a, s1) =>
      match unicode_digit s1 with
      | Some (b, s2) =>
          match unicode_digit s2 with
          | Some (c, s3) =>
              match unicode_digit s3 with
              | Some (d, rest) => Some (1000 * a + 100 * b + 10 * c + d, rest)
              | None => None
              end
          | None => None
          end
      | None => None
      end
  | None => None
  end.

(** [%m-] is [(1[0-2]|0[1-9]|[1-9])-]: the dash that follows decides between
    the two-digit and the one-digit alternatives. *)
Definition parse_m_dash (s : list ascii) : option (nat * list ascii) :=
  match s with
  | a :: "-"%char :: rest => (λ d, (d, rest)) <$> digit_in 1 9 a
  | "1"%char :: b :: "-"%char :: rest => (λ d, (10 + d, rest)) <$> digit_in 0 2 b
  | "0"%char :: b :: "-"%char :: rest => (λ d, (d, rest)) <$> digit_in 1 9 b
  | _ => None
  end.

(** [%d] is [3[0-1]|[1-2]\d|0[1-9]|[1-9]| [1-9]], the first alternative
    that matches. *)
Definition parse_d (s : list ascii) : option (nat * list ascii) :=
  let alt3 := match s with
              | "3"%char :: b :: rest => (λ d, (30 + d, rest)) <$> digit_in 0 1 b
              | _ => None
              end in
  let alt12 := match s with
               | a :: s' =>
                   match digit_in 1 2 a, unicode_digit s' with
                   | Some t, Some (u, rest) => Some (10 * t + u, rest)
                   | _, _ => None
                   end
               | _ => None
               end in
  let alt0 := match s with
              | "0"%char :: b :: rest => (λ d, (d, rest)) <$> digit_in 1 9 b
              | _ => None
              end in
  let alt1 := match s with
              | a :: rest => (λ d, (d, rest)) <$> digit_in 1 9 a
              | _ => None
              end in
  let altsp := match s with
               | " "%char :: b :: rest => (λ d, (d, rest)) <$> digit_in 1 9 b
               | _ => None
               end in
  match alt3, alt12, alt0, alt1 with
  | Some r, _, _, _ => Some r
  | None, Some r, _, _ => Some r
  | None, None, Some r, _ => Some r
  | None, None, None, Some r => Some r
  | None, None, None, None => altsp
  end.

Definition is_leap (y : nat) : bool :=
  (y mod 4 =? 0) && (negb (y mod 100 =? 0) || (y mod 400 =? 0)).

Definition days_in_month (y m : nat) : nat :=
  match m with
  | 2 => if is_leap y then 29 else 28
  | 4 | 6 | 9 | 11 => 30
  | _ => 31
  end.

(** The text matches the format, nothing is left over, and the fields make
    a date ([MINYEAR] is 1). Every failure is a [ValueError]. *)
Definition parse_date (s : string) : option datetime :=
  match parse_Y (list_ascii_of_string s) with
  | Some (y, "-"%char :: s1) =>
      match parse_m_dash s1 with
      | Some (m, s2) =>
          match parse_d s2 with
          | Some (d, []) =>
              if (1 <=? y) && (1 <=? d) && (d <=? days_in_month y m)
              then Some (Datetime y m d) else None
          | _ => None
          end
      | None => None
      end
  | _ => None
  end.

Definition strptime (v : json) : py datetime :=
  match v with
  | JStr s =>
      match parse_date s with
      | Some d => ret d
      | None => raise (Builtin ValueError)
      end
  | _ => raise (Builtin TypeError)
  end.

(** [a <= b] on naive datetimes at midnight. *)
Definition datetime_le (a b : datetime) : bool :=
  if year a <? year b then true
  else if year b <? year a then false
  else if month a <? month b then true
  else if month b <? month a then false
  else day a <=? day b.

(** ** Arithmetic

    binary64 has 53 bits of precision and its infinities at exponent 1024.
    The operations on floats are those of IEEE 754 as the library
    [SpecFloat] defines them. *)

Definition prec : Z := 53.
Definition emax : Z := 1024.

Definition OverflowError : exn_class := OtherError "OverflowError".
Definition ZeroDivisionError : exn_class := OtherError "ZeroDivisionError".

(** An [int] as a mantissa with exponent 0, of any length and not yet
    rounded. *)
Definition whole (z : Z) : float :=
  match z with
  | Z0 => S754_zero false
  | Zpos p => S754_finite false p 0
  | Zneg p => S754_finite true p 0
  end.

(** Rounding an [int], or a quotient of two, beyond the largest float
    raises instead of giving an infinity. *)
Definition or_overflow (x : float) : exn + float :=
  match x with
  | S754_infinity _ => inl (Builtin OverflowError)
  | _ => inr x
  end.

(** [float(z)]: the nearest float, ties to even. *)
Definition float_of_int (z : Z) : exn + float :=
  or_overflow (binary_normalize prec emax z 0 false).

(** The float an operand is turned into when the other one is a float. *)
Definition to_float (n : number) : exn + float :=
  match n with
  | Int z => float_of_int z
  | Float x => inr x
  end.

Definition is_zero (x : float) : bool :=
  match x with
  | S754_zero _ => true
  | _ => false
  end.

(** [a + b] on numbers: exact on two [int]s, rounded on floats. *)
Definition number_add (a b : number) : exn + number :=
  match a, b with
  | Int x, Int y => inr (Int (x + y))
  | _, _ =>
      match to_float a with
      | inl e => inl e
      | inr x =>
          match to_float b with
          | inl e => inl e
          | inr y => inr (Float (SFadd prec emax x y))
          end
      end
  end.

(** [a / b] on numbers: always a float. The quotient of two [int]s is
    rounded once, from the exact quotient. *)
Definition number_truediv (a b : number) : exn + float :=
  match a, b with
  | Int x, Int y =>
      if (y =? 0)%Z then inl (Builtin ZeroDivisionError)
      else or_overflow (SFdiv prec emax (whole x) (whole y))
  | _, _ =>
      match to_float a with
      | inl e => inl e
      | inr x =>
          match to_float b with
          | inl e => inl e
          | inr y =>
              if is_zero y then inl (Builtin ZeroDivisionError)
              else inr (SFdiv prec emax x y)
          end
      end
  end.

(** [n > 0]; NaN is not greater than anything. *)
Definition is_positive (n : number) : bool :=
  match n with
  | Int z => (0 <? z)%Z
  | Float x => SFltb (S754_zero false) x
  end.

(** The operand of an arithmetic operator, if the value is a number;
    [bool] is a subclass of [int]. *)
Definition as_number (v : json) : option number :=
  match v with
  | JNum n => Some n
  | JBool b => Some (Int (if b then 1 else 0))
  | _ => None
  end.

(** [a + b]: numbers are added, strings and lists concatenated. *)
Definition add (a b : json) : py json :=
  match as_number a, as_number b with
  | Some x, Some y =>
      let* n := lift (number_add x y) in ret (JNum n)
  | _, _ =>
      match a, b with
      | JStr s, JStr t => ret (JStr (s +:+ t))
      | JList l, JList k => ret (JList (l ++ k))
      | _, _ => raise (Builtin TypeError)
      end
  end.

(** [a / b] *)
Definition truediv (a b : json) : py float :=
  match as_number a, as_number b with
  | Some x, Some y => lift (number_truediv x y)
  | _, _ => raise (Builtin TypeError)
  end.

(** [v > 0] *)
Definition gt0 (v : json) : py bool :=
  match as_number v with
  | Some n => ret (is_positive n)
  | None => raise (Builtin TypeError)
  end.

(** ** The network *)

(** What a GET of a URL yields once the body is decoded: the decoded JSON,
    or the exception of the transport or of the decoder. *)
Definition network := fstring → exn + json.

(** [async with session.get(url) as response: data = await response.json()] *)
Definition get_json (net : network) (url : fstring) : py json :=
  log_request url ;; lift (net url).

(** [os.getenv(name)] is a string or [None]. *)
Definition of_env (v : option string) : json :=
  match v with
  | Some s => JStr s
  | None => JNull
  end.

(** ** SPY Options Expiry Dates Fetcher *)

(** The module-level names [get_expiry_dates] reads when it runs. *)
Record globals := Globals {
  API_KEY : option string;
  SYMBOL : string;
  START_DATE : string;
  END_DATE : string;
  BASE_URL : string
}.

Definition module_globals (api_key : option string) : globals :=
  Globals api_key "SPY" "2025-01-24" "2025-12-19" "https://api.polygon.io".

Definition newline : string := String (ascii_of_nat 10) EmptyString.

(** [s * n] *)
Fixpoint str_mul (s : string) (n : nat) : string :=
  match n with
  | 0 => EmptyString
  | S n' => String.append s (str_mul s n')
  end.

(** [sorted(list(expiry_dates))]: the elements are distinct, so the result
    is the one ordered arrangement of the set, whatever the algorithm. *)
Definition sorted (l : list string) : list string := merge_sort String.le l.

(** [expiry_dates.add(expiry)]; only strings get here, [strptime] has
    raised for every other value. *)
Definition set_add (expiry : json) (expiry_dates : gset string) : gset string :=
  match expiry with
  | JStr s => {[s]} ∪ expiry_dates
  | _ => expiry_dates
  end.

(** The body of [for contract in data.get('results', [])]. *)
Definition collect_expiry (start_date end_date : datetime)
    (expiry_dates : gset string) (contract : json) : py (gset string) :=
  let* expiry := get contract "expiration_date" JNull in
  if truthy expiry then
    let* expiry_date := strptime expiry in
    if datetime_le start_date expiry_date && datetime_le expiry_date end_date
    then ret (set_add expiry expiry_dates)
    else ret expiry_dates
  else ret expiry_dates.

(** [f"{next_url}&apiKey={API_KEY}"] *)
Definition next_page_url (g : globals) (next_url : json) : fstring :=
  [Fmt next_url; Lit "&apiKey="; Fmt (of_env (API_KEY g))].

(** [while next_url: ...]. The loop variable is an f-string on entry and
    after a truthy cursor; after a falsy cursor it is that cursor and the
    loop ends, which is the [Some] exit below. [None] is the [return] taken
    on a status other than OK. *)
Fixpoint while_next_url (g : globals) (net : network) (fuel : nat)
    (next_url : fstring) (expiry_dates : gset string) : py (option (gset string)) :=
  match fuel with
  | 0 => out_of_fuel
  | S fuel' =>
      if fstring_truthy next_url then
        let* data := get_json net next_url in
        let* status := get data "status" JNull in
        if negb (str_eq status "OK") then
          print [Lit "Error: API returned status "; Fmt status] ;;
          ret None
        else
          let* start_date := strptime (JStr (START_DATE g)) in
          let* end_date := strptime (JStr (END_DATE g)) in
          let* results := get data "results" (JList []) in
          let* contracts := iter results in
          let* expiry_dates := for_each (collect_expiry start_date end_date) contracts expiry_dates in
          let* next_url := get data "next_url" JNull in
          if truthy next_url
          then while_next_url g net fuel' (next_page_url g next_url) expiry_dates
          else ret (Some expiry_dates)
      else ret (Some expiry_dates)
  end.

Definition first_page_url (g : globals) : fstring :=
  [Fmt (JStr (BASE_URL g)); Lit "/v3/reference/options/contracts?";
   Lit "underlying_ticker="; Fmt (JStr (SYMBOL g)); Lit "&";
   Lit "expired=false&";
   Lit "limit=1000&";
   Lit "apiKey="; Fmt (of_env (API_KEY g))].

(** The lines printed once all pages are processed. *)
Definition print_report (g : globals) (sorted_dates : list string) : py unit :=
  print [Lit newline; Lit "SPY Option Expiry Dates between "; Fmt (JStr (START_DATE g));
         Lit " and "; Fmt (JStr (END_DATE g)); Lit ":"] ;;
  print [Lit (str_mul "=" 50)] ;;
  for_each (λ _ date, print [Fmt (JStr date)]) sorted_dates tt ;;
  print [Lit newline; Lit "Total expiry dates found: ";
         Fmt (JNum (Int (Z.of_nat (length sorted_dates))))].

(** [get_expiry_dates] returns [None] on every path; what it delivers is
    what it prints. *)
Definition get_expiry_dates (g : globals) (net : network) (fuel : nat) : py unit :=
  let expiry_dates : gset string := ∅ in
  let next_url := first_page_url g in
  try_except
    (let* done := while_next_url g net fuel next_url expiry_dates in
     match done with
     | None => ret tt
     | Some expiry_dates =>
         let sorted_dates := sorted (elements expiry_dates) in
         print_report g sorted_dates
     end)
    (λ e, print (Lit "Error fetching data: " :: str_exn e)).

(** ** The pagination loop of the guide (section 5B.4)

    [get_data] is not defined by the guide; it is the network here. The
    snippet leaves [all_results] as its result. *)
Fixpoint pagination_loop (api_key : option string) (get_data : network) (fuel : nat)
    (url : fstring) (all_results : list json) : py (list json) :=
  match fuel with
  | 0 => out_of_fuel
  | S fuel' =>
      let* data := get_json get_data url in
      let* results := get data "results" (JList []) in
      let* items := iter results in
      let all_results := all_results ++ items in
      let* next_url := get data "next_url" JNull in
      if negb (truthy next_url) then ret all_results
      else pagination_loop api_key get_data fuel'
             [Fmt next_url; Lit "&apiKey="; Fmt (of_env api_key)] all_results
  end.

(** ** AsyncPolygonClient *)

Record AsyncPolygonClient := Client {
  api_key : json;
  base_url : string
}.

(** [AsyncPolygonClient(api_key)] *)
Definition new_client (key : json) : AsyncPolygonClient :=
  Client key "https://api.polygon.io".

(** What [_make_request] does with the answer to a request already sent. *)
Definition receive (session : network) (url : fstring) : py json :=
  try_except
    (let* data := lift (session url) in
     let* status := get data "status" JNull in
     if str_eq status "OK" then get data "results" JNull
     else ret JNull)
    (λ e, print (Lit "Error making request: " :: str_exn e) ;; ret JNull).

(** [_make_request]: the whole body is inside the [try]. *)
Definition _make_request (session : network) (url : fstring) : py json :=
  try_except
    (let* data := get_json session url in
     let* status := get data "status" JNull in
     if str_eq status "OK" then get data "results" JNull
     else ret JNull)
    (λ e, print (Lit "Error making request: " :: str_exn e) ;; ret JNull).

Definition snapshot_url (self : AsyncPolygonClient) (underlying option_symbol : json) : fstring :=
  [Fmt (JStr (base_url self)); Lit "/v3/snapshot/options/"; Fmt underlying; Lit "/";
   Fmt option_symbol; Lit "?apiKey="; Fmt (api_key self)].

Definition get_option_snapshot (self : AsyncPolygonClient) (session : network)
    (underlying option_symbol : json) : py json :=
  let url := snapshot_url self underlying option_symbol in
  _make_request session url.

(** [await asyncio.gather] over [tasks]: the results come in the order of the
    awaitables. The effects of the tasks are sequenced in that order here,
    which is one schedule of the event loop; [gather_step] below has them
    all. *)
Fixpoint gather {A} (tasks : list (py A)) : py (list A) :=
  match tasks with
  | [] => ret []
  | task :: tasks' =>
      let* r := task in
      let* rs := gather tasks' in
      ret (r :: rs)
  end.

(** The arguments of the coroutine made for one contract. *)
Definition snapshot_args (contract : json) : py (json * json) :=
  let* underlying := get contract "underlying_ticker" JNull in
  let* option_symbol := get contract "ticker" JNull in
  ret (underlying, option_symbol).

(** A coroutine object does not run until it is awaited, so [tasks] is a
    list of suspended computations. *)
Definition get_multiple_snapshots (self : AsyncPolygonClient) (session : network)
    (contracts : list json) : py (list json) :=
  let* tasks :=
    for_each (λ tasks contract,
                let* args := snapshot_args contract in
                let task := get_option_snapshot self session args.1 args.2 in
                ret (tasks ++ [task]))
             contracts [] in
  let* results := gather tasks in
  ret (List.filter (λ r, negb (is_None r)) results).

(** *** The event loop under [gather]

    A task made by [get_option_snapshot] is created, then sends its request
    and waits at [session.get], then is done with the value
    [_make_request] returns. The loop may run any task that can move;
    nothing in [get_multiple_snapshots] holds a task back. *)
Inductive task :=
| Created (underlying option_symbol : json)
| Awaiting (url : fstring)
| Done (r : json).

Record loop := Loop {
  tasks : list task;
  world : effects
}.



Inductive gather_step (self : AsyncPolygonClient) (session : network) : loop → loop → Prop :=
| step_send ts w i underlying option_symbol :
    ts !! i = Some (Created underlying option_symbol) →
    let url := snapshot_url self underlying option_symbol in
    gather_step self session (Loop ts w)
      (Loop (<[i := Awaiting url]> ts) (log_request url w).2)
| step_receive ts w i url r w' :
    ts !! i = Some (Awaiting url) →
    receive session url w = (Ok r, w') →
    gather_step self session (Loop ts w) (Loop (<[i := Done r]> ts) w').

(** The loop [gather] starts with: one created task per contract. *)
Definition created (args : list (json * json)) : list task :=
  (λ a, Created a.1 a.2) <$> args.

(** [gather] returns once every task is done, with the values in the order
    of the tasks. *)
Fixpoint task_results (ts : list task) : option (list json) :=
  match ts with
  | [] => Some []
  | Done r :: ts' => cons r <$> task_results ts'
  | _ :: _ => None
  end.

(** The runs of the event loop. *)
Inductive gather_steps (self : AsyncPolygonClient) (session : network) : loop → loop → Prop :=
| steps_refl l : gather_steps self session l l
| steps_step l1 l2 l3 :
    gather_steps self session l1 l2 → gather_step self session l2 l3 →
    gather_steps self session l1 l3.

(** ** WebSocket message handling *)

Definition handle_trade (trade_data : json) : py unit :=
  let* symbol := get trade_data "sym" JNull in
  let* price := get trade_data "p" JNull in
  let* size := get trade_data "s" JNull in
  print [Lit "Trade: "; Fmt symbol; Lit " - $"; Fmt price; Lit " - Size: "; Fmt size].

Definition handle_quote (quote_data : json) : py unit :=
  let* symbol := get quote_data "sym" JNull in
  let* bid := get quote_data "bp" JNull in
  let* ask := get quote_data "ap" JNull in
  print [Lit "Quote: "; Fmt symbol; Lit " - Bid: $"; Fmt bid; Lit " - Ask: $"; Fmt ask].

(** The body of [for item in data]. *)
Definition dispatch (item : json) : py unit :=
  let* event_type := get item "ev" JNull in
  if str_eq event_type "T" then handle_trade item
  else if str_eq event_type "Q" then handle_quote item
  else ret tt.

(** [on_message(ws, message)], from the decoded message on: [decoded] is
    what [json.loads(message)] returns or raises. [ws] is not used. *)
Definition on_message (decoded : exn + json) : py unit :=
  try_except
    (let* data := lift decoded in
     print [Lit "Received: "; Fmt data] ;;
     match data with
     | JList items => for_each (λ _ item, dispatch item) items tt
     | _ => ret tt
     end)
    (λ e, print (Lit "Error processing message: " :: str_exn e)).

(** The classifier of the specification, in its words: [T] is a trade, [Q]
    a quote, every other tag is ignored. *)
Inductive event :=
| TradeEvent (sym p s : json)
| QuoteEvent (sym bp ap : json)
| Ignored.

Definition field (record : gmap string json) (key : string) : json :=
  default JNull (record !! key).

Definition classify (record : gmap string json) : event :=
  match record !! "ev" with
  | Some (JStr "T") => TradeEvent (field record "sym") (field record "p") (field record "s")
  | Some (JStr "Q") => QuoteEvent (field record "sym") (field record "bp") (field record "ap")
  | _ => Ignored
  end.

(** What the handler of an event prints. *)
Definition handler_output (e : event) : list fstring :=
  match e with
  | TradeEvent sym p s =>
      [[Lit "Trade: "; Fmt sym; Lit " - $"; Fmt p; Lit " - Size: "; Fmt s]]
  | QuoteEvent sym bp ap =>
      [[Lit "Quote: "; Fmt sym; Lit " - Bid: $"; Fmt bp; Lit " - Ask: $"; Fmt ap]]
  | Ignored => []
  end.

(** ** Price of an option snapshot (guide, section 5B.2) *)

Definition option_price (snapshot : json) : py json :=
  let* last_quote := get snapshot "last_quote" (JObj ∅) in
  let* bid := get last_quote "bid" (JNum (Int 0)) in
  let* ask := get last_quote "ask" (JNum (Int 0)) in
  let* bid_positive := gt0 bid in
  let* both_positive := if bid_positive then gt0 ask else ret false in
  if both_positive then
    let* total := add bid ask in
    let* price := truediv total (JNum (Int 2)) in
    ret (JNum (Float price))
  else
    let* last_trade := get snapshot "last_trade" (JObj ∅) in
    get last_trade "price" (JNum (Int 0)).

(** ** get_option_ticker *)

Record contract_query := Query {
  underlying_ticker : string;
  expiration_date : string;
  strike_price : number;
  contract_type : string;
  limit : nat
}.

Record OptionsContract := Contract { ticker : string }.

(** A client of the SDK: what listing the contracts of a query yields. *)
Definition RESTClient := contract_query → exn + list OptionsContract.

(** What the function finds around it: the value of [POLYGON_API_KEY] once
    [load_dotenv()] has run, and the constructor of the SDK's client. *)
Record sdk := Sdk {
  environ_key : option string;
  new_RESTClient : string → exn + RESTClient
}.

Definition lower_ascii (c : ascii) : ascii :=
  let n := nat_of_ascii c in
  if (65 <=? n) && (n <=? 90) then ascii_of_nat (n + 32) else c.

(** [s.lower()] *)
Fixpoint lower (s : string) : string :=
  match s with
  | EmptyString => EmptyString
  | String c s' => String (lower_ascii c) (lower s')
  end.

Definition valid_option_type (option_type : string) : bool :=
  bool_decide (lower option_type ∈ ["call"; "put"]).

Definition get_option_ticker (env : sdk) (underlying expiration : string) (strike : number)
    (option_type : string) (api_key : option string) : py string :=
  if negb (valid_option_type option_type) then
    raise (Raised ValueError [Lit "option_type must be either 'call' or 'put'"])
  else
    let* api_key :=
      match api_key with
      | None =>
          let api_key := environ_key env in
          if negb (truthy (of_env api_key)) then
            raise (Raised ValueError
                     [Lit "No API key provided and POLYGON_API_KEY not found in environment"])
          else ret (default EmptyString api_key)
      | Some key => ret key
      end in
    let* client := lift (new_RESTClient env api_key) in
    try_except
      (let* contracts :=
         lift (client (Query underlying expiration strike (lower option_type) 1)) in
       match contracts with
       | [] =>
           raise (Raised ValueError
                    [Lit "No "; Fmt (JStr option_type); Lit " contract found for ";
                     Fmt (JStr underlying); Lit " "; Lit "expiring "; Fmt (JStr expiration);
                     Lit " at strike "; Fmt (JNum strike)])
       | first :: _ => ret (ticker first)
       end)
      (λ e, raise (Raised RuntimeError (Lit "Error fetching option contract: " :: str_exn e))).

(** ** scripts/fetch_financials.py *)

Module fetch_financials.

Definition BASE_URL : string := "https://api.polygon.io/vX/reference/financials".

Definition always_safe (c : ascii) : bool :=
  let n := nat_of_ascii c in
  ((65 <=? n) && (n <=? 90)) || ((97 <=? n) && (n <=? 122)) || ((48 <=? n) && (n <=? 57))
  || (n =? 95) || (n =? 46) || (n =? 45) || (n =? 126).

Definition hex_digit (n : nat) : ascii :=
  ascii_of_nat (if n <? 10 then 48 + n else 55 + n).

(** [urllib.parse.quote_plus(s)], byte by byte. *)
Fixpoint quote_plus (s : string) : string :=
  match s with
  | EmptyString => EmptyString
  | String c s' =>
      let n := nat_of_ascii c in
      if always_safe c then String c (quote_plus s')
      else if n =? 32 then String "+"%char (quote_plus s')
      else String "%"%char
             (String (hex_digit (n / 16)) (String (hex_digit (n mod 16)) (quote_plus s')))
  end.

(** [urllib.parse.urlencode(params)] for a dict of strings, in insertion
    order. *)
Fixpoint urlencode (params : list (string * string)) : string :=
  match params with
  | [] => EmptyString
  | [(k, v)] => quote_plus k +:+ "=" +:+ quote_plus v
  | (k, v) :: rest => quote_plus k +:+ "=" +:+ quote_plus v +:+ "&" +:+ urlencode rest
  end.

(** A value of the environment that is no UTF-8 reaches Python, where
    the environment is decoded as UTF-8, with surrogate escapes in place of
    the bytes that do not decode, and such a text has no strict encoding.
    [utf8 need lo hi s]: [s] goes on a well-formed text in which [need]
    more bytes of a character are due, the next of them between [lo] and
    [hi]. *)
Fixpoint utf8 (need : nat) (lo hi : N) (s : list ascii) : bool :=
  match s with
  | [] => Nat.eqb need 0
  | c :: rest =>
      let n := N_of_ascii c in
      match need with
      | 0 =>
          if (n <? 128)%N then utf8 0 128 191 rest
          else if (194 <=? n)%N && (n <=? 223)%N then utf8 1 128 191 rest
          else if (n =? 224)%N then utf8 2 160 191 rest
          else if (n =? 237)%N then utf8 2 128 159 rest
          else if (225 <=? n)%N && (n <=? 239)%N then utf8 2 128 191 rest
          else if (n =? 240)%N then utf8 3 144 191 rest
          else if (241 <=? n)%N && (n <=? 243)%N then utf8 3 128 191 rest
          else if (n =? 244)%N then utf8 3 128 143 rest
          else false
      | S need' => (lo <=? n)%N && (n <=? hi)%N && utf8 need' 128 191 rest
      end
  end.

Definition valid_utf8 (s : string) : bool := utf8 0 128 191 (list_ascii_of_string s).

Definition UnicodeEncodeError : exn_class := OtherError "UnicodeEncodeError".

(** What [urlopen(url, timeout=30)] followed by [json.load(response)]
    comes to. [HTTPError] is caught first; [fp] is [None] when [err.fp] is
    falsy, and otherwise what [err.fp.read()] gives, decoded with
    replacement, or raises. [URLError] is the one failure of the transport
    the script handles. [Failure] is any other exception: a timeout or a
    reset while the answer is read, a body that is not JSON. *)
Inductive fetched :=
| Response (payload : json)
| HTTPError (code : Z) (reason : string) (fp : option (exn + string))
| URLError (reason : fstring)
| Failure (e : exn).

Record environment := Env {
  dotenv_installed : bool;           (* [from dotenv import load_dotenv] succeeded *)
  environ_api_key : option string;   (* POLYGON_API_KEY of the process *)
  dotenv_api_key : option string;    (* POLYGON_API_KEY of the project's .env, if the file
                                        exists and sets it *)
  script_dir : string;               (* Path(__file__).resolve().parent *)
  urlopen : fstring → fetched
}.

(** [os.getenv("POLYGON_API_KEY")] after [load_dotenv(..., override=False)],
    which leaves a variable of the process as it is. *)
Definition getenv (env : environment) : option string :=
  match environ_api_key env with
  | Some v => Some v
  | None => if dotenv_installed env then dotenv_api_key env else None
  end.

Definition financials_url (api_key : string) : fstring :=
  let params :=
    [("ticker", "MSFT"); ("timeframe", "quarterly"); ("limit", "4");
     ("sort", "period_of_report_date"); ("order", "desc"); ("apiKey", api_key)] in
  [Fmt (JStr BASE_URL); Lit "?"; Fmt (JStr (urlencode params))].

(** The script does not sit in the root directory. *)
Definition output_path (env : environment) : string :=
  script_dir env +:+ "/" +:+ "msft-financials.json".

(** [output_path.write_text(json.dumps(payload, indent=2, sort_keys=True))]
    stores the document; printing and writing the file do not fail.
    [urlencode] encodes the key as UTF-8 before it quotes the bytes, and
    raises for a key that has no encoding. Nothing catches what the
    handler of [HTTPError] raises itself. *)
Definition main (env : environment) : py Z :=
  (if dotenv_installed env then ret tt
   else print_stderr
          [Lit "python-dotenv not installed; reading POLYGON_API_KEY from the current environment only."]) ;;
  let api_key := getenv env in
  if negb (truthy (of_env api_key)) then
    print_stderr [Lit "POLYGON_API_KEY environment variable is required"] ;;
    ret 1%Z
  else
    let api_key := default EmptyString api_key in
    if negb (valid_utf8 api_key) then raise (Builtin UnicodeEncodeError)
    else
    let url := financials_url api_key in
    log_request url ;;
    match urlopen env url with
    | Response payload =>
        write_file (output_path env) payload ;;
        print [Lit "Saved response to "; Fmt (JStr (output_path env))] ;;
        ret 0%Z
    | HTTPError code reason fp =>
        print_stderr [Lit "HTTP error "; Fmt (JNum (Int code)); Lit ": "; Fmt (JStr reason)] ;;
        match fp with
        | Some read =>
            let* body := lift read in
            print_stderr [Fmt (JStr body)]
        | None => ret tt
        end ;;
        ret 2%Z
    | URLError reason =>
        print_stderr (Lit "Request failed: " :: reason) ;;
        ret 3%Z
    | Failure e => raise e
    end.

End fetch_financials.

(** ** The words of the specification about pages and chains *)

(** [data.get(key, dflt)] of a page, with [dflt] for a body that is no dict. *)
Definition page_field (data : json) (key : string) (dflt : json) : json :=
  match data with
  | JObj m => default dflt (m !! key)
  | _ => dflt
  end.

Definition cursor (data : json) : json := page_field data "next_url" JNull.

Definition status_of (data : json) : json := page_field data "status" JNull.

(** The records of a page. *)
Definition page_results (data : json) : list json :=
  match page_field data "results" (JList []) with
  | JList l => l
  | _ => []
  end.

(** The date a record carries, if it carries one. *)
Definition record_date (record : json) : option string :=
  match page_field record "expiration_date" JNull with
  | JStr s => if String.eqb s EmptyString then None else Some s
  | _ => None
  end.

(** [start <= date <= end] for the range of the module. *)
Definition in_range (g : globals) (date : string) : bool :=
  match parse_date (START_DATE g), parse_date date, parse_date (END_DATE g) with
  | Some a, Some d, Some b => datetime_le a d && datetime_le d b
  | _, _, _ => false
  end.

Definition valid_range (g : globals) : bool :=
  bool_decide (is_Some (parse_date (START_DATE g)) ∧ is_Some (parse_date (END_DATE g))).

(** A record is a dict whose [expiration_date] is absent, falsy, or a date
    in the format. *)
Definition well_formed_record (record : json) : bool :=
  match record with
  | JObj m =>
      match m !! "expiration_date" with
      | None => true
      | Some (JStr s) => String.eqb s EmptyString || bool_decide (is_Some (parse_date s))
      | Some v => negb (truthy v)
      end
  | _ => false
  end.

(** A page that reports OK status: a dict whose status is ["OK"] and whose
    results, when present, are a list of records. *)
Definition ok_page (data : json) : bool :=
  match data with
  | JObj m =>
      str_eq (default JNull (m !! "status")) "OK" &&
      match m !! "results" with
      | None => true
      | Some (JList l) => forallb well_formed_record l
      | Some _ => false
      end
  | _ => false
  end.

(** A page that reports another status. *)
Definition bad_status_page (data : json) : bool :=
  is_dict data && negb (str_eq (status_of data) "OK").

(** The pages a fetch that starts at [url] walks through: the network
    answers [url] with the first page; a truthy cursor leads to the next
    URL; the last page has no cursor. *)
Inductive chain (g : globals) (net : network) : fstring → list json → Prop :=
| chain_last url data :
    net url = inr data → truthy (cursor data) = false →
    chain g net url [data]
| chain_more url data rest :
    net url = inr data → truthy (cursor data) = true →
    chain g net (next_page_url g (cursor data)) rest →
    chain g net url (data :: rest).

(** A chain cut short by a page that reports a status other than OK, after
    the pages [before]. *)
Inductive broken_chain (g : globals) (net : network) : fstring → list json → json → Prop :=
| broken_here url bad :
    net url = inr bad → bad_status_page bad = true →
    broken_chain g net url [] bad
| broken_later url data before bad :
    net url = inr data → truthy (cursor data) = true →
    broken_chain g net (next_page_url g (cursor data)) before bad →
    broken_chain g net url (data :: before) bad.

(** A chain whose cursor is present on every page. *)
Definition endless_chain (g : globals) (net : network) (pages : nat → json) : Prop :=
  ∃ urls : nat → fstring,
    urls 0 = first_page_url g ∧
    ∀ i, net (urls i) = inr (pages i) ∧
         truthy (cursor (pages i)) = true ∧
         urls (S i) = next_page_url g (cursor (pages i)).

(** The dates of the records of the pages, first page first. *)
Definition chain_dates (pages : list json) : list string :=
  omap record_date (concat (page_results <$> pages)).

(** What [print_report] prints. *)
Definition report (g : globals) (sorted_dates : list string) : list fstring :=
  [[Lit newline; Lit "SPY Option Expiry Dates between "; Fmt (JStr (START_DATE g));
    Lit " and "; Fmt (JStr (END_DATE g)); Lit ":"];
   [Lit (str_mul "=" 50)]]
  ++ ((λ date, [Fmt (JStr date)]) <$> sorted_dates)
  ++ [[Lit newline; Lit "Total expiry dates found: ";
       Fmt (JNum (Int (Z.of_nat (length sorted_dates))))]].

(** The effects [w] with more requests in the log. *)
Definition with_requests (w : effects) (urls : list fstring) : effects :=
  Effects (stdout w) (stderr w) (requests w ++ urls) (files w).

(** The effects [w] with more lines printed. *)
Definition with_stdout (w : effects) (lines : list fstring) : effects :=
  Effects (stdout w ++ lines) (stderr w) (requests w) (files w).

(** What one well-formed record adds to the set. *)
Definition added (g : globals) (record : json) (expiry_dates : gset string) : gset string :=
  match record_date record with
  | Some s => if in_range g s then {[s]} ∪ expiry_dates else expiry_dates
  | None => expiry_dates
  end.

(** The dates of the pages that lie in the range, first page first. *)
Definition dates_in_range (g : globals) (pages : list json) : list string :=
  List.filter (in_range g) (chain_dates pages).

(** What the fetcher prints for a chain: each date once, in order. *)
Definition expected_dates (g : globals) (pages : list json) : list string :=
  sorted (elements (list_to_set (dates_in_range g pages) : gset string)).

(** A page without a list of records under [results] makes the loops
    raise; this is the shape the documented loop needs. *)
Definition has_result_list (data : json) : bool :=
  match data with
  | JObj m =>
      match m !! "results" with
      | None | Some (JList _) => true
      | Some _ => false
      end
  | _ => false
  end.

(** ** Pages and networks to run the fetchers on *)

Definition record_with_date (date : string) : json :=
  JObj {[ "expiration_date" := JStr date ]}.

(** A page [{status: "OK", results: [...], next_url: ...}]. *)
Definition page (results : list json) (next_url : json) : json :=
  JObj (<["status" := JStr "OK"]> (<["results" := JList results]> {[ "next_url" := next_url ]})).

(** A network of two pages: a URL made from a cursor, which has three
    pieces, is answered with the second page, every other URL with the
    first. *)
Definition two_pages (p1 p2 : json) : network :=
  λ url, match url with
         | [Fmt _; Lit _; Fmt _] => inr p2
         | _ => inr p1
         end.

Definition key_globals : globals := module_globals (Some "KEY").

Definition june_march : json :=
  page [record_with_date "2025-06-20"; record_with_date "2025-03-21"] (JStr "p2").

Definition march_again : json := page [record_with_date "2025-03-21"] JNull.

(** A network whose every page has a cursor. *)
Definition endless_page : json := page [] (JStr "more").

Definition endless : network := λ _, inr endless_page.

(** The scenario of the specification: range 2025-01-01 to 2025-02-28, a
    page with 2025-02-01 and a page with 2025-03-01. *)
Definition scenario_globals : globals :=
  Globals (Some "KEY") "SPY" "2025-01-01" "2025-02-28" "https://api.polygon.io".

Definition scenario_page1 : json := page [record_with_date "2025-02-01"] (JStr "p2").

Definition scenario_page2 : json := page [record_with_date "2025-03-01"] JNull.

(** A page that reports an error after one page of results. *)
Definition error_page : json := JObj {[ "status" := JStr "ERROR" ]}.

(** Every date of the set lies in the range. *)
Definition all_in_range (g : globals) (expiry_dates : gset string) : Prop :=
  ∀ s, s ∈ expiry_dates → in_range g s = true.

(** ** The words of the specification about snapshot items *)

(** The value [_make_request] returns for an answer of the network: the
    [results] of a body whose status is OK, [None] for everything else. *)
Definition answer_record (answer : exn + json) : json :=
  match answer with
  | inl _ => JNull
  | inr data =>
      if str_eq (status_of data) "OK" then page_field data "results" JNull else JNull
  end.

(** The arguments [get_multiple_snapshots] reads from a contract. *)
Definition contract_args (contract : json) : json * json :=
  (page_field contract "underlying_ticker" JNull, page_field contract "ticker" JNull).

Definition item_answer (self : AsyncPolygonClient) (session : network) (contract : json)
    : exn + json :=
  session (snapshot_url self (contract_args contract).1 (contract_args contract).2).

(** An item fails when its request raises (a transport error, a body that
    is not JSON) or when the answer does not report OK status. *)
Definition item_fails (self : AsyncPolygonClient) (session : network) (contract : json) : bool :=
  match item_answer self session contract with
  | inl _ => true
  | inr data => negb (str_eq (status_of data) "OK")
  end.

(** An item whose answer reports OK but carries no [results], or null. *)
Definition item_empty (self : AsyncPolygonClient) (session : network) (contract : json) : bool :=
  match item_answer self session contract with
  | inl _ => false
  | inr data => str_eq (status_of data) "OK" && is_None (page_field data "results" JNull)
  end.

Definition item_record (self : AsyncPolygonClient) (session : network) (contract : json) : json :=
  answer_record (item_answer self session contract).

Definition not_None (r : json) : bool := negb (is_None r).

(** One contract, and a network that answers every request with OK and no
    results. *)
Definition spy_contract : json :=
  JObj (<["underlying_ticker" := JStr "SPY"]> {[ "ticker" := JStr "O:SPY250117C00500000" ]}).

Definition ok_without_results : network := λ _, inr (JObj {[ "status" := JStr "OK" ]}).

(** A network that answers every request with a snapshot. *)
Definition some_snapshot : json :=
  JObj (<["status" := JStr "OK"]> {[ "results" := JObj {[ "ticker" := JStr "O:SPY250117C00500000" ]} ]}).

Definition always_snapshot : network := λ _, inr some_snapshot.



(** The state a task made for [a] can be in. *)
Definition task_for (self : AsyncPolygonClient) (session : network) (a : json * json)
    (t : task) : Prop :=
  t = Created a.1 a.2
  ∨ t = Awaiting (snapshot_url self a.1 a.2)
  ∨ t = Done (answer_record (session (snapshot_url self a.1 a.2))).

(** The floats that the JSON texts 150.2, 1.23, 1.45 and 1.34 decode to,
    and the float below 1.34. *)
Definition float_150_2 : float := S754_finite false 5284692687742566 (-45).
Definition float_1_23 : float := S754_finite false 5539427541665710 (-52).
Definition float_1_45 : float := S754_finite false 6530219459687219 (-52).
Definition float_1_34 : float := S754_finite false 6034823500676465 (-52).
Definition float_below_1_34 : float := S754_finite false 6034823500676464 (-52).

(** The frame of the specification's scenario and a record with another
    tag. *)
Definition aapl_trade : gmap string json :=
  <["ev" := JStr "T"]> (<["sym" := JStr "AAPL"]>
    (<["p" := JNum (Float float_150_2)]> {[ "s" := JNum (Int 100) ]})).

Definition other_event : gmap string json := {[ "ev" := JStr "X" ]}.

(** A snapshot with a two-sided quote and one with an empty bid. *)
Definition quoted_snapshot : gmap string json :=
  <["last_quote" := JObj (<["bid" := JNum (Float float_1_23)]>
                            {[ "ask" := JNum (Float float_1_45) ]})]>
    {[ "last_trade" := JObj {[ "price" := JNum (Float float_1_34) ]} ]}.

Definition unquoted_snapshot : gmap string json :=
  <["last_quote" := JObj (<["bid" := JNum (Int 0)]> {[ "ask" := JNum (Float float_1_45) ]})]>
    {[ "last_trade" := JObj {[ "price" := JNum (Float float_1_34) ]} ]}.

(** The key [get_option_ticker] goes on with: the argument, or else the
    variable of the environment when it is set and not empty. *)
Definition resolved_key (env : sdk) (api_key : option string) : option string :=
  match api_key with
  | Some key => Some key
  | None =>
      match environ_key env with
      | Some key => if String.eqb key EmptyString then None else Some key
      | None => None
      end
  end.

(** An SDK whose listing finds no contract. *)
Definition empty_listing : sdk := Sdk (Some "KEY") (λ _, inr (λ _, inr [])).

(** An environment with a key in the process, and an API that answers
    with an empty document. *)
Definition keyed_environment : fetch_financials.environment :=
  fetch_financials.Env true (Some "KEY") None "/srv/scripts"
    (λ _, fetch_financials.Response (JObj ∅)).

(** * More of the sources *)

(** ** AsyncPolygonClient: the other requests *)

(** [v[key]] for a string key: a dict without the key raises [KeyError],
    every other value [TypeError]. *)
Definition subscript (v : json) (key : string) : py json :=
  match v with
  | JObj m =>
      match m !! key with
      | Some x => ret x
      | None => raise (Builtin (OtherError "KeyError"))
      end
  | _ => raise (Builtin TypeError)
  end.

(** The dict [get_last_trade] returns; [T] is the type of an aware
    [datetime]. *)
Record LastTrade (T : Type) := MkLastTrade {
  trade_price : json;
  trade_size : json;
  trade_timestamp : T
}.
Arguments MkLastTrade {T} _ _ _.
Arguments trade_price {T} _.
Arguments trade_size {T} _.
Arguments trade_timestamp {T} _.

Definition last_trade_url (self : AsyncPolygonClient) (symbol : json) : fstring :=
  [Fmt (JStr (base_url self)); Lit "/v2/last/trade/"; Fmt symbol; Lit "?apiKey=";
   Fmt (api_key self)].

(** [get_last_trade]. [fromtimestamp] stands for
    [datetime.fromtimestamp(_, TIMEZONE)], which the library defines; the
    entries of the dict are evaluated in the order they are written. *)
Definition get_last_trade {T} (fromtimestamp : float → exn + T) (self : AsyncPolygonClient)
    (session : network) (symbol : json) : py (option (LastTrade T)) :=
  let url := last_trade_url self symbol in
  let* result := _make_request session url in
  if truthy result then
    let* p := subscript result "p" in
    let* s := subscript result "s" in
    let* t := subscript result "t" in
    let* seconds := truediv t (JNum (Int 1000)) in
    let* timestamp := lift (fromtimestamp seconds) in
    ret (Some (MkLastTrade p s timestamp))
  else ret None.

Definition contracts_url (self : AsyncPolygonClient) (symbol expiry : json) : fstring :=
  [Fmt (JStr (base_url self)); Lit "/v3/reference/options/contracts?";
   Lit "underlying_ticker="; Fmt symbol; Lit "&";
   Lit "expiration_date="; Fmt expiry; Lit "&";
   Lit "limit=1000&";
   Lit "apiKey="; Fmt (api_key self)].

Definition get_option_contracts (self : AsyncPolygonClient) (session : network)
    (symbol expiry : json) : py json :=
  let url := contracts_url self symbol expiry in
  _make_request session url.

(** ** The entry point of polygon_instructions.py *)


(** ** Words for the properties that follow *)

(** Following the cursors of the pages [before] leads from [url] to
    [url']. *)
Inductive leads_to (g : globals) (net : network) : fstring → list json → fstring → Prop :=
| leads_here url : leads_to g net url [] url
| leads_on url data before url' :
    net url = inr data → truthy (cursor data) = true →
    leads_to g net (next_page_url g (cursor data)) before url' →
    leads_to g net url (data :: before) url'.

(** A record whose date is a non-empty string that is no date. *)
Definition malformed_record (record : json) : bool :=
  match record with
  | JObj m =>
      match m !! "expiration_date" with
      | Some (JStr s) => negb (String.eqb s EmptyString) && negb (bool_decide (is_Some (parse_date s)))
      | _ => false
      end
  | _ => false
  end.

(** An [int] or [float] (or [bool]). *)
Definition is_number (v : json) : bool :=
  match v with
  | JNum _ | JBool _ => true
  | _ => false
  end.

(** A date written [YYYY-MM-DD], every field zero-padded. *)
Definition zero_padded (s : string) : bool :=
  match list_ascii_of_string s with
  | [y3; y2; y1; y0; dash1; m1; m0; dash2; d1; d0] =>
      Ascii.eqb dash1 "-" && Ascii.eqb dash2 "-" &&
      forallb (λ c, bool_decide (is_Some (digit c))) [y3; y2; y1; y0; m1; m0; d1; d0]
  | _ => false
  end.

(** The date of [s1] is not after the date of [s2]. *)
Definition not_after (s1 s2 : string) : Prop :=
  ∃ d1 d2, parse_date s1 = Some d1 ∧ parse_date s2 = Some d2 ∧ datetime_le d1 d2 = true.

(** Occurrences of a character in a text. *)
Fixpoint count_char (c : ascii) (s : string) : nat :=
  match s with
  | EmptyString => 0
  | String c' s' => (if Ascii.eqb c c' then 1 else 0) + count_char c s'
  end.

Definition hex_value (c : ascii) : option nat :=
  let n := nat_of_ascii c in
  if (48 <=? n) && (n <=? 57) then Some (n - 48)
  else if (65 <=? n) && (n <=? 70) then Some (n - 55)
  else None.

(** What a server does with a quoted text: [+] is a space and [%XY] the
    byte with that code. *)
Fixpoint unquote_plus (s : string) : string :=
  match s with
  | EmptyString => EmptyString
  | String c rest =>
      if Ascii.eqb c "+" then String " " (unquote_plus rest)
      else if Ascii.eqb c "%" then
        match rest with
        | String h (String l rest') =>
            match hex_value h, hex_value l with
            | Some a, Some b => String (ascii_of_nat (16 * a + b)) (unquote_plus rest')
            | _, _ => String c (unquote_plus rest)
            end
        | _ => String c (unquote_plus rest)
        end
      else String c (unquote_plus rest)
  end.

(** The URL of the request made for one contract. *)
Definition item_url (self : AsyncPolygonClient) (contract : json) : fstring :=
  snapshot_url self (contract_args contract).1 (contract_args contract).2.

(** The URL a task has sent its request to, if it has sent one. *)
Definition task_request (self : AsyncPolygonClient) (a : json * json) (t : task)
    : list fstring :=
  match t with
  | Created _ _ => []
  | _ => [snapshot_url self a.1 a.2]
  end.

(** A last-trade answer without a price. *)
Definition trade_without_price : json :=
  JObj (<["status" := JStr "OK"]>
         {[ "results" := JObj (<["s" := JNum (Int 100)]> {[ "t" := JNum (Int 1700000000000) ]}) ]}).

(** The requests the tasks have sent, task by task. *)
Definition sent_requests (self : AsyncPolygonClient) (args : list (json * json))
    (ts : list task) : list fstring :=
  concat (zip_with (task_request self) args ts).

(** A network whose second page cannot be fetched, and one whose second
    page carries a date that is no date. *)
Definition connection_reset : exn := Raised (OtherError "ClientConnectionError") [Lit "reset"].

Definition second_page_fails (p1 : json) : network :=
  λ url, match url with
         | [Fmt _; Lit _; Fmt _] => inl connection_reset
         | _ => inr p1
         end.

Definition page_with_bad_date : json :=
  page [record_with_date "2025-03-21"; record_with_date "21/03/2025"] JNull.

(** A page with the two ends of the range of the module, and a chain of
    one page. *)
Definition page_of_bounds : json :=
  page [record_with_date "2025-12-19"; record_with_date "2025-01-24";
        record_with_date "2025-01-23"] JNull.

Definition one_page (p : json) : network := λ _, inr p.

(** Dates written without padding. *)
Definition unpadded_page : json :=
  page [record_with_date "2025-2-1"; record_with_date "2025-10-1"] JNull.

(** A snapshot whose quote has a null bid, and one whose quote is null. *)
Definition null_bid_snapshot : gmap string json :=
  <["last_quote" := JObj (<["bid" := JNull]> {[ "ask" := JNum (Float float_1_45) ]})]>
    {[ "last_trade" := JObj {[ "price" := JNum (Float float_1_34) ]} ]}.

Definition null_quote_snapshot : gmap string json :=
  <["last_quote" := JNull]>
    {[ "last_trade" := JObj {[ "price" := JNum (Float float_1_34) ]} ]}.

(** An SDK whose constructor refuses an empty key, and whose listing
    finds two contracts. *)
Definition two_contracts : RESTClient :=
  λ _, inr [Contract "O:SPY250115C00500000"; Contract "O:SPY250115C00500001"].

Definition strict_sdk : sdk :=
  Sdk (Some EmptyString)
      (λ key, if String.eqb key EmptyString
              then inl (Raised (OtherError "AuthError") [Lit "Must specify env var POLYGON_API_KEY or pass api_key in constructor"])
              else inr two_contracts).

(** The characters a quoted text is made of. *)
Definition quoted_char (c : ascii) : bool :=
  fetch_financials.always_safe c || Ascii.eqb c "+" || Ascii.eqb c "%".

Fixpoint all_chars (P : ascii → bool) (s : string) : bool :=
  match s with
  | EmptyString => true
  | String c s' => P c && all_chars P s'
  end.

(** The parameters of the financials request that do not depend on the
    key. *)
Definition fixed_parameters : string :=
  "ticker=MSFT&timeframe=quarterly&limit=4&sort=period_of_report_date&order=desc&apiKey=".


(** The environment with another content of the project's .env file. *)
Definition with_dotenv_key (env : fetch_financials.environment) (key : option string) :
    fetch_financials.environment :=
  fetch_financials.Env (fetch_financials.dotenv_installed env)
    (fetch_financials.environ_api_key env) key
    (fetch_financials.script_dir env) (fetch_financials.urlopen env).

(** A process that exports an empty POLYGON_API_KEY beside a .env file
    that sets one. *)
Definition empty_process_key : fetch_financials.environment :=
  fetch_financials.Env true (Some EmptyString) (Some "KEY") "/srv/scripts"
    (λ _, fetch_financials.Response (JObj ∅)).

(** [(a + b) / 2] on two numbers as the interpreter computes it: the sum,
    exact on two ints and rounded otherwise, then the quotient by the
    int 2, rounded. *)
Definition average (a b : number) : exn + float :=
  match number_add a b with
  | inl e => inl e
  | inr total => number_truediv total (Int 2)
  end.


(** An answer with an HTTP status of error whose body cannot be read,
    and a transport that times out while the answer is read. *)
Definition unreadable_error : fetch_financials.environment :=
  fetch_financials.Env true (Some "KEY") None "/srv/scripts"
    (λ _, fetch_financials.HTTPError 502 "Bad Gateway"
            (Some (inl (Builtin (OtherError "ConnectionResetError"))))).

Definition read_timeout : fetch_financials.environment :=
  fetch_financials.Env true (Some "KEY") None "/srv/scripts"
    (λ _, fetch_financials.Failure (Builtin (OtherError "TimeoutError"))).

(** A key of the environment that is one byte and no UTF-8. *)
Definition undecodable_key : fetch_financials.environment :=
  fetch_financials.Env true (Some (String (ascii_of_nat 255) EmptyString)) None "/srv/scripts"
    (λ _, fetch_financials.Response (JObj ∅)).


(** A date whose year starts with the Arabic-Indic digit two (U+0662). *)
Definition arabic_indic_year : string :=
  String (ascii_of_nat 217) (String (ascii_of_nat 162) "025-03-21").

(** * Properties *)

(** ** The monad *)

Lemma bind_ok {A B} (m : py A) (k : A → py B) w a w' :
  m w = (Ok a, w') → bind m k w = k a w'.
Proof. intros H. unfold bind. by rewrite H. Qed.

(** Run a bind whose first computation is known by [H]. *)
Ltac run H := rewrite (bind_ok _ _ _ _ _ H).

(** Split on the outcome of the first computation [m] of a bind; [lem] says
    what [m] leaves of the effects, and an outcome other than [Ok] leaves
    the enclosing computation at once. *)
Ltac bind_case m x w' H lem :=
  unfold bind at 1;
  destruct m as [[x| |] w'] eqn:H;
  (let H' := fresh H "_effects" in pose proof H as H'; apply lem in H'; try subst w');
  [|by intros [= <- <-]..].

Lemma get_dict m key dflt w :
  get (JObj m) key dflt w = (Ok (default dflt (m !! key)), w).
Proof. reflexivity. Qed.

Lemma get_page_field data key dflt w :
  is_dict data = true → get data key dflt w = (Ok (page_field data key dflt), w).
Proof. by destruct data. Qed.

Lemma get_unchanged v key dflt w r w' : get v key dflt w = (r, w') → w' = w.
Proof. destruct v; unfold get, ret, raise; by intros [= _ <-]. Qed.

Lemma iter_unchanged v w r w' : iter v w = (r, w') → w' = w.
Proof. destruct v; unfold iter, ret, raise; by intros [= _ <-]. Qed.

Lemma get_json_stdout net url w r w' :
  get_json net url w = (r, w') → stdout w' = stdout w.
Proof.
  unfold get_json, bind, log_request, lift. destruct (net url); by intros [= _ <-].
Qed.

Lemma get_json_ok net url data w :
  net url = inr data → get_json net url w = (Ok data, with_requests w [url]).
Proof. intros Hnet. unfold get_json, bind, log_request, lift. by rewrite Hnet. Qed.

Lemma with_requests_nil w : with_requests w [] = w.
Proof. destruct w. unfold with_requests. simpl. by rewrite app_nil_r. Qed.

Lemma with_requests_app w us vs :
  with_requests (with_requests w us) vs = with_requests w (us ++ vs).
Proof. unfold with_requests. simpl. by rewrite app_assoc. Qed.

Lemma with_stdout_nil w : with_stdout w [] = w.
Proof. destruct w. unfold with_stdout. simpl. by rewrite app_nil_r. Qed.

Lemma with_stdout_app w xs ys :
  with_stdout (with_stdout w xs) ys = with_stdout w (xs ++ ys).
Proof. unfold with_stdout. simpl. by rewrite app_assoc. Qed.

Lemma for_each_print {A} (line : A → fstring) xs w :
  for_each (λ _ x, print (line x)) xs tt w = (Ok tt, with_stdout w (line <$> xs)).
Proof.
  revert w. induction xs as [|x xs IH]; intros w; simpl.
  - unfold ret. by rewrite with_stdout_nil.
  - unfold bind, print at 1. rewrite IH. unfold with_stdout. simpl.
    by rewrite <- app_assoc.
Qed.

Lemma str_eq_true v s : str_eq v s = true ↔ v = JStr s.
Proof.
  destruct v as [| | |t| |]; simpl; try (split; [discriminate|congruence]).
  rewrite String.eqb_eq. split; congruence.
Qed.

(** ** Dates *)

Example parse_date_ok : parse_date "2025-02-01" = Some (Datetime 2025 2 1).
Proof. reflexivity. Qed.

Example parse_date_short_fields : parse_date "2025-2-1" = Some (Datetime 2025 2 1).
Proof. reflexivity. Qed.

Example parse_date_not_a_day : parse_date "2025-02-30" = None.
Proof. reflexivity. Qed.

Example parse_date_leftover : parse_date "2025-02-011" = None.
Proof. reflexivity. Qed.

Lemma strptime_unchanged v w r w' : strptime v w = (r, w') → w' = w.
Proof.
  destruct v as [| | |s| |]; unfold strptime, ret, raise; try by intros [= _ <-].
  destruct (parse_date s); by intros [= _ <-].
Qed.

Lemma strptime_ok s d w w' :
  strptime (JStr s) w = (Ok d, w') → parse_date s = Some d.
Proof. unfold strptime. destruct (parse_date s); unfold ret, raise; by intros [= <- _]. Qed.

Lemma strptime_str v d w w' :
  strptime v w = (Ok d, w') → ∃ s, v = JStr s ∧ parse_date s = Some d.
Proof.
  destruct v as [| | |s| |]; try discriminate.
  intros H. exists s. split; [done|]. by eapply strptime_ok.
Qed.

Lemma strptime_parsed s d w : parse_date s = Some d → strptime (JStr s) w = (Ok d, w).
Proof. intros H. unfold strptime. by rewrite H. Qed.

Lemma valid_range_parsed g :
  valid_range g = true →
  ∃ a b, parse_date (START_DATE g) = Some a ∧ parse_date (END_DATE g) = Some b.
Proof.
  unfold valid_range. intros H. apply bool_decide_eq_true in H as [[a Ha] [b Hb]]. eauto.
Qed.

Lemma in_range_true g s :
  in_range g s = true ↔
  ∃ a d b, parse_date (START_DATE g) = Some a ∧ parse_date s = Some d ∧
           parse_date (END_DATE g) = Some b ∧
           datetime_le a d = true ∧ datetime_le d b = true.
Proof.
  unfold in_range. split.
  - destruct (parse_date (START_DATE g)) as [a|]; [|done].
    destruct (parse_date s) as [d|]; [|done].
    destruct (parse_date (END_DATE g)) as [b|]; [|done].
    intros [? ?]%andb_true_iff. by exists a, d, b.
  - intros (a & d & b & -> & -> & -> & Ha & Hb). by rewrite Ha, Hb.
Qed.

(** ** Pages *)

Lemma first_page_url_truthy g : fstring_truthy (first_page_url g) = true.
Proof. unfold fstring_truthy, first_page_url. simpl. apply orb_true_r. Qed.

Lemma next_page_url_truthy g next_url : fstring_truthy (next_page_url g next_url) = true.
Proof.
  unfold fstring_truthy, next_page_url. cbn [existsb].
  apply orb_true_iff. right. reflexivity.
Qed.

Lemma ok_page_dict data : ok_page data = true → is_dict data = true.
Proof. by destruct data. Qed.

Lemma ok_page_status data : ok_page data = true → str_eq (status_of data) "OK" = true.
Proof.
  destruct data; try discriminate. simpl. intros H. by apply andb_true_iff in H as [? _].
Qed.

Lemma ok_page_results data :
  ok_page data = true →
  ∀ w, (let* results := get data "results" (JList []) in iter results) w
       = (Ok (page_results data), w)
       ∧ forallb well_formed_record (page_results data) = true.
Proof.
  destruct data as [| | | | |m]; try discriminate. simpl. intros H w.
  apply andb_true_iff in H as [_ H]. unfold bind, page_results. simpl.
  destruct (m !! "results") as [[| | | |l|]|]; try discriminate; simpl; auto.
Qed.

Lemma added_union g record (acc : gset string) :
  added g record acc = acc ∪ list_to_set (List.filter (in_range g) (omap record_date [record])).
Proof.
  unfold added. simpl. destruct (record_date record) as [s|]; simpl.
  - destruct (in_range g s); simpl; set_solver.
  - set_solver.
Qed.

Lemma dates_in_range_cons g data rest :
  dates_in_range g (data :: rest) = dates_in_range g [data] ++ dates_in_range g rest.
Proof.
  unfold dates_in_range, chain_dates. simpl.
  by rewrite app_nil_r, omap_app, List.filter_app.
Qed.

(** ** The cursor loop, for a range that parses *)

Section Loop.

Context (g : globals) (net : network) (a b : datetime).
Hypothesis Hstart : parse_date (START_DATE g) = Some a.
Hypothesis Hend : parse_date (END_DATE g) = Some b.

Lemma in_range_parsed s :
  in_range g s = match parse_date s with
                 | Some d => datetime_le a d && datetime_le d b
                 | None => false
                 end.
Proof. unfold in_range. rewrite Hstart, Hend. by destruct (parse_date s). Qed.

(** *** One record *)

Lemma collect_expiry_well_formed acc record w :
  well_formed_record record = true →
  collect_expiry a b acc record w = (Ok (added g record acc), w).
Proof.
  intros Hwf. destruct record as [| | | | |m]; try discriminate.
  unfold collect_expiry, added, record_date. run (get_dict m "expiration_date" JNull w).
  simpl in *. destruct (m !! "expiration_date") as [v|] eqn:Hv; simpl; [|done].
  destruct v as [|c|q|s|l|m']; simpl in *;
    try (apply negb_true_iff in Hwf; by rewrite Hwf); try done.
  destruct (String.eqb s EmptyString) eqn:Hs; simpl in *; [done|].
  apply bool_decide_eq_true in Hwf as [d Hd].
  run (strptime_parsed s d w Hd).
  rewrite (in_range_parsed s), Hd.
  by destruct (datetime_le a d && datetime_le d b).
Qed.

Lemma collect_expiry_in_range acc record w r w' :
  collect_expiry a b acc record w = (r, w') →
  w' = w ∧ ∀ acc', r = Ok acc' → all_in_range g acc → all_in_range g acc'.
Proof.
  unfold collect_expiry.
  bind_case (get record "expiration_date" JNull w) expiry w1 Hget get_unchanged.
  destruct (truthy expiry); [|intros [= <- <-]; split; [done|by intros ? [= <-]]].
  bind_case (strptime expiry w) d w1 Hparse strptime_unchanged.
  destruct (strptime_str _ _ _ _ Hparse) as (s & -> & Hd).
  destruct (datetime_le a d && datetime_le d b) eqn:Hle;
    intros [= <- <-]; (split; [done|]); intros acc' [= <-] Hacc; [|done].
  intros x. simpl. rewrite elem_of_union, elem_of_singleton. intros [->|Hx]; [|by apply Hacc].
  by rewrite (in_range_parsed s), Hd.
Qed.

(** *** The records of a page *)

Lemma for_each_collect records (acc : gset string) w :
  forallb well_formed_record records = true →
  for_each (collect_expiry a b) records acc w =
  (Ok (acc ∪ list_to_set (List.filter (in_range g) (omap record_date records))), w).
Proof.
  revert acc. induction records as [|r rs IH]; intros acc Hwf; simpl.
  - unfold ret. do 2 f_equal. set_solver.
  - apply andb_true_iff in Hwf as [Hr Hrs].
    run (collect_expiry_well_formed acc r w Hr).
    rewrite (IH _ Hrs). do 2 f_equal.
    rewrite added_union. simpl.
    destruct (record_date r) as [s|]; simpl; [|set_solver].
    destruct (in_range g s); simpl; set_solver.
Qed.

Lemma for_each_collect_in_range records acc w r w' :
  for_each (collect_expiry a b) records acc w = (r, w') →
  w' = w ∧ ∀ acc', r = Ok acc' → all_in_range g acc → all_in_range g acc'.
Proof.
  revert acc. induction records as [|x xs IH]; intros acc; simpl.
  - intros [= <- <-]. split; [done|]. by intros ? [= <-].
  - unfold bind. destruct (collect_expiry a b acc x w) as [[acc1| |] w1] eqn:Hx;
      destruct (collect_expiry_in_range acc x w _ _ Hx) as [-> Hacc1];
      [|by intros [= <- <-]..].
    intros Hrest. destruct (IH _ Hrest) as [-> Hrec]. split; [done|].
    intros acc' -> Hacc. eapply Hrec; [done|]. by eapply Hacc1.
Qed.

(** *** One turn of the loop *)

Lemma while_next_url_ok_page fuel url data acc w :
  fstring_truthy url = true → net url = inr data → ok_page data = true →
  while_next_url g net (S fuel) url acc w =
  let acc' := acc ∪ list_to_set (dates_in_range g [data]) in
  if truthy (cursor data)
  then while_next_url g net fuel (next_page_url g (cursor data)) acc' (with_requests w [url])
  else (Ok (Some acc'), with_requests w [url]).
Proof.
  intros Hurl Hnet Hok. cbn [while_next_url]. rewrite Hurl.
  pose proof (ok_page_dict _ Hok) as Hdict.
  run (get_json_ok net url data w Hnet).
  run (get_page_field data "status" JNull (with_requests w [url]) Hdict).
  fold (status_of data). rewrite (ok_page_status _ Hok). cbn [negb].
  run (strptime_parsed _ _ (with_requests w [url]) Hstart).
  run (strptime_parsed _ _ (with_requests w [url]) Hend).
  destruct (ok_page_results _ Hok (with_requests w [url])) as [Hres Hwf].
  unfold bind at 1. unfold bind at 1. unfold bind in Hres.
  destruct (get data "results" (JList []) (with_requests w [url])) as [[results| |] w1] eqn:Hg;
    try discriminate.
  rewrite Hres.
  run (for_each_collect (page_results data) acc (with_requests w [url]) Hwf).
  run (get_page_field data "next_url" JNull (with_requests w [url]) Hdict).
  fold (cursor data).
  unfold dates_in_range, chain_dates. simpl. rewrite app_nil_r.
  by destruct (truthy (cursor data)).
Qed.

Lemma while_next_url_bad_page fuel url bad acc w :
  fstring_truthy url = true → net url = inr bad → bad_status_page bad = true →
  while_next_url g net (S fuel) url acc w =
  (Ok None, with_stdout (with_requests w [url])
              [[Lit "Error: API returned status "; Fmt (status_of bad)]]).
Proof.
  intros Hurl Hnet Hbad. apply andb_true_iff in Hbad as [Hdict Hstatus].
  cbn [while_next_url]. rewrite Hurl.
  run (get_json_ok net url bad w Hnet).
  run (get_page_field bad "status" JNull (with_requests w [url]) Hdict).
  fold (status_of bad). by rewrite Hstatus.
Qed.

(** *** A chain of pages that report OK *)

Lemma while_next_url_chain :
  ∀ url pages, chain g net url pages →
  fstring_truthy url = true → forallb ok_page pages = true →
  ∀ fuel acc w, length pages ≤ fuel →
  ∃ urls, length urls = length pages ∧
    while_next_url g net fuel url acc w =
    (Ok (Some (acc ∪ list_to_set (dates_in_range g pages))), with_requests w urls).
Proof.
  intros url pages Hchain.
  induction Hchain as [url data Hnet Hcur|url data rest Hnet Hcur Hrest IH];
    intros Hurl Hok fuel acc w Hfuel; simpl in Hok, Hfuel;
    apply andb_true_iff in Hok as [Hdata Hpages];
    (destruct fuel as [|fuel]; [lia|]);
    rewrite (while_next_url_ok_page fuel url data acc w Hurl Hnet Hdata);
    cbn zeta; rewrite Hcur.
  - exists [url]. done.
  - destruct (IH (next_page_url_truthy _ _) Hpages fuel
                (acc ∪ list_to_set (dates_in_range g [data])) (with_requests w [url]))
      as (urls & Hlen & Hrun); [lia|].
    exists (url :: urls). split; [simpl; by rewrite Hlen|].
    rewrite Hrun, with_requests_app. simpl.
    rewrite (dates_in_range_cons g data rest), list_to_set_app_L.
    by rewrite (assoc_L (∪)).
Qed.

(** *** A chain cut short by a bad status *)

Lemma while_next_url_broken :
  ∀ url before bad, broken_chain g net url before bad →
  fstring_truthy url = true → forallb ok_page before = true →
  ∀ fuel acc w, length before < fuel →
  ∃ urls, length urls = S (length before) ∧
    while_next_url g net fuel url acc w =
    (Ok None, with_stdout (with_requests w urls)
                [[Lit "Error: API returned status "; Fmt (status_of bad)]]).
Proof.
  intros url before bad Hchain.
  induction Hchain as [url bad Hnet Hbad|url data before bad Hnet Hcur Hrest IH];
    intros Hurl Hok fuel acc w Hfuel; simpl in Hok, Hfuel;
    (destruct fuel as [|fuel]; [lia|]).
  - exists [url]. split; [done|]. by apply while_next_url_bad_page.
  - apply andb_true_iff in Hok as [Hdata Hpages].
    rewrite (while_next_url_ok_page fuel url data acc w Hurl Hnet Hdata).
    cbn zeta. rewrite Hcur.
    destruct (IH (next_page_url_truthy _ _) Hpages fuel
                (acc ∪ list_to_set (dates_in_range g [data])) (with_requests w [url]))
      as (urls & Hlen & Hrun); [lia|].
    exists (url :: urls). split; [simpl; by rewrite Hlen|].
    by rewrite Hrun, with_requests_app.
Qed.

(** *** A chain without end *)

Lemma while_next_url_endless (urls : nat → fstring) (pages : nat → json) :
  (∀ i, net (urls i) = inr (pages i) ∧
        truthy (cursor (pages i)) = true ∧
        urls (S i) = next_page_url g (cursor (pages i))) →
  (∀ i, ok_page (pages i) = true) →
  ∀ fuel i acc w, fstring_truthy (urls i) = true →
  ∃ sent, length sent = fuel ∧
    while_next_url g net fuel (urls i) acc w = (OutOfFuel, with_requests w sent).
Proof.
  intros Hchain Hok. induction fuel as [|fuel IH]; intros i acc w Hurl.
  - exists []. by rewrite with_requests_nil.
  - destruct (Hchain i) as (Hnet & Hcur & Hnext).
    rewrite (while_next_url_ok_page fuel _ _ acc w Hurl Hnet (Hok i)).
    cbn zeta. rewrite Hcur, <- Hnext.
    destruct (IH (S i) (acc ∪ list_to_set (dates_in_range g [pages i]))
                (with_requests w [urls i])) as (sent & Hlen & Hrun).
    { rewrite Hnext. apply next_page_url_truthy. }
    exists (urls i :: sent). split; [simpl; by rewrite Hlen|].
    by rewrite Hrun, with_requests_app.
Qed.

End Loop.

(** ** The whole function on a chain of OK pages *)

Lemma print_report_lines g sorted_dates w :
  print_report g sorted_dates w = (Ok tt, with_stdout w (report g sorted_dates)).
Proof.
  unfold print_report, bind. cbn [print]. rewrite for_each_print.
  unfold with_stdout, report, print. simpl.
  by rewrite <- !app_assoc.
Qed.

Lemma report_length g dates : length (report g dates) = 3 + length dates.
Proof. unfold report. simpl. rewrite length_app, length_fmap. simpl. lia. Qed.

Lemma report_inj g dates dates' : report g dates = report g dates' → dates = dates'.
Proof.
  unfold report. simpl. intros [= H].
  apply app_inj_tail in H as [H _].
  revert dates' H. induction dates as [|d ds IH]; intros [|d' ds'] H; simpl in H;
    try discriminate; [done|].
  injection H as -> H. f_equal. by apply IH.
Qed.

Lemma get_expiry_dates_chain g net pages fuel :
  valid_range g = true →
  chain g net (first_page_url g) pages →
  forallb ok_page pages = true →
  length pages ≤ fuel →
  ∃ urls, length urls = length pages ∧
    get_expiry_dates g net fuel no_effects =
    (Ok tt, Effects (report g (expected_dates g pages)) [] urls []).
Proof.
  intros Hrange Hchain Hok Hfuel.
  destruct (valid_range_parsed g Hrange) as (a & b & Ha & Hb).
  destruct (while_next_url_chain g net a b Ha Hb _ _ Hchain (first_page_url_truthy g) Hok
              fuel ∅ no_effects Hfuel) as (urls & Hlen & Hrun).
  exists urls. split; [done|].
  unfold get_expiry_dates, try_except. run Hrun.
  rewrite print_report_lines. unfold expected_dates.
  by rewrite (left_id_L ∅ (∪)).
Qed.

(** ** What is printed for a chain *)

Lemma elem_of_expected_dates g pages s :
  s ∈ expected_dates g pages ↔ s ∈ chain_dates pages ∧ in_range g s = true.
Proof.
  unfold expected_dates, sorted, dates_in_range.
  rewrite merge_sort_Permutation, elem_of_elements, elem_of_list_to_set.
  rewrite list_elem_of_In, List.filter_In, <- list_elem_of_In. done.
Qed.

Lemma expected_dates_NoDup g pages : NoDup (expected_dates g pages).
Proof.
  unfold expected_dates, sorted. rewrite merge_sort_Permutation. apply NoDup_elements.
Qed.

Lemma expected_dates_sorted g pages : StronglySorted String.le (expected_dates g pages).
Proof. unfold expected_dates, sorted. apply StronglySorted_merge_sort; apply _. Qed.

(** C1, as amended. For a chain of N pages that all report OK,
    [get_expiry_dates] issues exactly N requests and returns; it does not
    deliver the concatenation of the pages' results but prints the dates of
    their records that lie in the range, each distinct date once and in
    ascending order. *)
Theorem get_expiry_dates_ok_chain g net pages fuel :
  valid_range g = true →
  chain g net (first_page_url g) pages →
  forallb ok_page pages = true →
  length pages ≤ fuel →
  let out := get_expiry_dates g net fuel no_effects in
  out.1 = Ok tt ∧
  length (requests out.2) = length pages ∧
  stdout out.2 = report g (expected_dates g pages) ∧
  NoDup (expected_dates g pages) ∧
  StronglySorted String.le (expected_dates g pages) ∧
  ∀ s, s ∈ expected_dates g pages ↔ s ∈ chain_dates pages ∧ in_range g s = true.
Proof.
  intros Hrange Hchain Hok Hfuel.
  destruct (get_expiry_dates_chain g net pages fuel Hrange Hchain Hok Hfuel)
    as (urls & Hlen & Hrun).
  cbn zeta. rewrite Hrun. simpl. split_and!; try done.
  - apply expected_dates_NoDup.
  - apply expected_dates_sorted.
  - intros s. apply elem_of_expected_dates.
Qed.

Lemma two_pages_chain g p1 p2 :
  truthy (cursor p1) = true → truthy (cursor p2) = false →
  chain g (two_pages p1 p2) (first_page_url g) [p1; p2].
Proof. intros H1 H2. apply chain_more; [done..|]. by apply chain_last. Qed.

Lemma get_expiry_dates_ok_chain_witness :
  let out := get_expiry_dates key_globals (two_pages june_march march_again) 2 no_effects in
  out.1 = Ok tt ∧
  length (requests out.2) = 2 ∧
  stdout out.2 = report key_globals (expected_dates key_globals [june_march; march_again]) ∧
  NoDup (expected_dates key_globals [june_march; march_again]) ∧
  StronglySorted String.le (expected_dates key_globals [june_march; march_again]) ∧
  ∀ s, s ∈ expected_dates key_globals [june_march; march_again]
       ↔ s ∈ chain_dates [june_march; march_again] ∧ in_range key_globals s = true.
Proof.
  apply (get_expiry_dates_ok_chain key_globals (two_pages june_march march_again)
           [june_march; march_again] 2).
  - reflexivity.
  - apply two_pages_chain; reflexivity.
  - reflexivity.
  - simpl. lia.
Defined.

(** C1, counterexample. Two pages reporting OK carry the dates
    2025-06-20, 2025-03-21 and 2025-03-21 again; whatever the fuel, what
    the fetcher prints is not their concatenation: the repeated date is
    printed once and the dates are sorted. *)
Lemma get_expiry_dates_not_concatenation :
  chain key_globals (two_pages june_march march_again) (first_page_url key_globals)
    [june_march; march_again] ∧
  forallb ok_page [june_march; march_again] = true ∧
  chain_dates [june_march; march_again] = ["2025-06-20"; "2025-03-21"; "2025-03-21"] ∧
  stdout (get_expiry_dates key_globals (two_pages june_march march_again) 2 no_effects).2
    = report key_globals ["2025-03-21"; "2025-06-20"] ∧
  ∀ fuel,
    stdout (get_expiry_dates key_globals (two_pages june_march march_again) fuel no_effects).2
    ≠ report key_globals (chain_dates [june_march; march_again]).
Proof.
  split; [apply two_pages_chain; reflexivity|].
  split; [reflexivity|]. split; [reflexivity|]. split; [by vm_compute|].
  intros fuel H. apply (f_equal length) in H.
  destruct fuel as [|[|fuel]]; [vm_compute in H; discriminate H..|].
  destruct (get_expiry_dates_chain key_globals (two_pages june_march march_again)
              [june_march; march_again] (S (S fuel))) as (urls & _ & Hrun);
    [reflexivity|apply two_pages_chain; reflexivity|reflexivity|simpl; lia|].
  rewrite Hrun in H. clear Hrun. vm_compute in H. discriminate H.
Qed.

(** ** The documented pagination loop

    On the same chains the loop of the guide does return the concatenation
    of the pages' results, in page order, with one request per page. *)
Lemma pagination_loop_concat g net :
  ∀ url pages, chain g net url pages →
  forallb has_result_list pages = true →
  ∀ fuel all_results w, length pages ≤ fuel →
  ∃ urls, length urls = length pages ∧
    pagination_loop (API_KEY g) net fuel url all_results w =
    (Ok (all_results ++ concat (page_results <$> pages)), with_requests w urls).
Proof.
  assert (∀ url data fuel acc w,
    net url = inr data → has_result_list data = true →
    pagination_loop (API_KEY g) net (S fuel) url acc w =
    if truthy (cursor data)
    then pagination_loop (API_KEY g) net fuel (next_page_url g (cursor data))
           (acc ++ page_results data) (with_requests w [url])
    else (Ok (acc ++ page_results data), with_requests w [url])) as Hturn.
  { intros url data fuel acc w Hnet Hshape. cbn [pagination_loop].
    assert (get_json net url w = (Ok data, with_requests w [url])) as Hget.
    { unfold get_json, bind, log_request, lift. by rewrite Hnet. }
    rewrite (bind_ok _ _ _ _ _ Hget).
    destruct data as [| | | | |m]; try discriminate. simpl in Hshape.
    unfold bind, cursor, page_results. simpl.
    destruct (m !! "results") as [[| | | |l|]|]; try discriminate; simpl;
      by destruct (truthy (default JNull (m !! "next_url"))). }
  intros url pages Hchain.
  induction Hchain as [url data Hnet Hcur|url data rest Hnet Hcur Hrest IH];
    intros Hshape fuel acc w Hfuel; simpl in Hshape, Hfuel;
    apply andb_true_iff in Hshape as [Hdata Hpages];
    (destruct fuel as [|fuel]; [lia|]);
    rewrite (Hturn url data fuel acc w Hnet Hdata), Hcur.
  - exists [url]. simpl. by rewrite app_nil_r.
  - destruct (IH Hpages fuel (acc ++ page_results data) (with_requests w [url]))
      as (urls & Hlen & Hrun); [lia|].
    exists (url :: urls). split; [simpl; by rewrite Hlen|].
    rewrite Hrun, with_requests_app. simpl. by rewrite <- app_assoc.
Qed.

(** ** Every run of the fetcher

    Whatever the network answers, the set the loop builds holds dates of
    the range only, and nothing is printed before the loop is left. *)

(** How the loop can be left, and what has been printed by then. *)
Lemma while_next_url_leaves g net fuel :
  ∀ url acc w r w',
  while_next_url g net fuel url acc w = (r, w') →
  all_in_range g acc →
  match r with
  | Ok (Some acc') => all_in_range g acc' ∧ stdout w' = stdout w
  | Ok None => ∃ status, stdout w' = stdout w ++ [[Lit "Error: API returned status "; Fmt status]]
  | Raise _ | OutOfFuel => stdout w' = stdout w
  end.
Proof.
  induction fuel as [|fuel IH]; intros url acc w r w'; cbn [while_next_url].
  - by intros [= <- <-].
  - destruct (fstring_truthy url); [|by intros [= <- <-]].
    bind_case (get_json net url w) data w1 Hget get_json_stdout.
    bind_case (get data "status" JNull w1) status w2 Hstatus get_unchanged.
    destruct (str_eq status "OK"); cbn [negb].
    2:{ unfold bind, print, ret. intros [= <- <-] _. exists status. simpl.
        by rewrite Hget_effects. }
    bind_case (strptime (JStr (START_DATE g)) w1) a w2 Hstart strptime_unchanged.
    bind_case (strptime (JStr (END_DATE g)) w1) b w2 Hend strptime_unchanged.
    apply strptime_ok in Hstart, Hend.
    bind_case (get data "results" (JList []) w1) results w2 Hresults get_unchanged.
    bind_case (iter results w1) contracts w2 Hiter iter_unchanged.
    unfold bind at 1.
    destruct (for_each (collect_expiry a b) contracts acc w1) as [[acc1| |] w2] eqn:Hfor;
      destruct (for_each_collect_in_range g a b Hstart Hend _ _ _ _ _ Hfor) as [-> Hacc1];
      [|by intros [= <- <-]..].
    bind_case (get data "next_url" JNull w1) next_url w2 Hnext get_unchanged.
    destruct (truthy next_url).
    + intros Hrun Hacc. rewrite <- Hget_effects. eapply IH; [exact Hrun|]. by eapply Hacc1.
    + unfold ret. intros [= <- <-] Hacc. split; [|done]. by eapply Hacc1.
Qed.

Lemma all_in_range_empty g : all_in_range g ∅.
Proof. intros s Hs. set_solver. Qed.

(** What any run of [get_expiry_dates] has printed when it stops: a report
    whose dates all lie in the range, or one line of error and no date, or
    nothing when the fuel ran out. It never raises. *)
Lemma get_expiry_dates_every_run g net fuel :
  let out := get_expiry_dates g net fuel no_effects in
  (out.1 = Ok tt ∧
     ((∃ dates, stdout out.2 = report g dates ∧ ∀ s, s ∈ dates → in_range g s = true)
      ∨ (∃ status, stdout out.2 = [[Lit "Error: API returned status "; Fmt status]])
      ∨ (∃ e, stdout out.2 = [Lit "Error fetching data: " :: str_exn e])))
  ∨ (out.1 = OutOfFuel ∧ stdout out.2 = []).
Proof.
  cbn zeta. unfold get_expiry_dates, try_except, bind.
  destruct (while_next_url g net fuel (first_page_url g) ∅ no_effects) as [r w'] eqn:Hrun.
  pose proof (while_next_url_leaves g net fuel _ _ _ _ _ Hrun (all_in_range_empty g)) as Hleft.
  destruct r as [[acc'|]|e|]; simpl in *.
  - destruct Hleft as [Hacc Hout]. left. rewrite print_report_lines. simpl.
    split; [done|]. left. exists (sorted (elements acc')). rewrite Hout. split; [done|].
    intros s. unfold sorted. rewrite merge_sort_Permutation, elem_of_elements. apply Hacc.
  - destruct Hleft as [status Hout]. left. split; [done|]. right. left. eauto.
  - left. split; [done|]. right. right. exists e. by rewrite Hleft.
  - right. done.
Qed.

(** ** The date range, for every run *)

(** C6. With the range from START_DATE to END_DATE, every date the fetch
    prints in its report, on any network, parses to a date [d] with
    [start <= d <= end]; and on a chain of pages that report OK the dates
    printed are the dates of the records of the raw pages that lie in
    the range and no others, so a record whose date lies outside is left
    out. *)
Theorem get_expiry_dates_in_range g net fuel pages :
  let out := get_expiry_dates g net fuel no_effects in
  (∀ dates, stdout out.2 = report g dates →
     ∀ s, s ∈ dates →
       ∃ a d b, parse_date (START_DATE g) = Some a ∧ parse_date s = Some d ∧
                parse_date (END_DATE g) = Some b ∧
                datetime_le a d = true ∧ datetime_le d b = true) ∧
  (valid_range g = true →
   chain g net (first_page_url g) pages →
   forallb ok_page pages = true →
   length pages ≤ fuel →
   ∃ dates, stdout out.2 = report g dates ∧
     ∀ s, s ∈ dates ↔ s ∈ chain_dates pages ∧ in_range g s = true).
Proof.
  cbn zeta. split.
  - intros dates Hout s Hs. apply in_range_true.
    destruct (get_expiry_dates_every_run g net fuel)
      as [[_ [(dates' & Hout' & Hin)|[(status & Hout')|(e & Hout')]]]|[_ Hout']];
      rewrite Hout' in Hout.
    + apply report_inj in Hout as <-. by apply Hin.
    + apply (f_equal length) in Hout. rewrite report_length in Hout. simpl in Hout. lia.
    + apply (f_equal length) in Hout. rewrite report_length in Hout. simpl in Hout. lia.
    + apply (f_equal length) in Hout. rewrite report_length in Hout. simpl in Hout. lia.
  - intros Hrange Hchain Hok Hfuel.
    destruct (get_expiry_dates_chain g net pages fuel Hrange Hchain Hok Hfuel)
      as (urls & Hlen & Hrun).
    exists (expected_dates g pages). rewrite Hrun. split; [done|].
    intros s. apply elem_of_expected_dates.
Qed.

(** The scenario of the specification: only 2025-02-01 is printed. *)
Lemma get_expiry_dates_in_range_witness :
  let out := get_expiry_dates scenario_globals (two_pages scenario_page1 scenario_page2) 2
               no_effects in
  (∀ dates, stdout out.2 = report scenario_globals dates →
     ∀ s, s ∈ dates →
       ∃ a d b, parse_date (START_DATE scenario_globals) = Some a ∧ parse_date s = Some d ∧
                parse_date (END_DATE scenario_globals) = Some b ∧
                datetime_le a d = true ∧ datetime_le d b = true) ∧
  ∃ dates, stdout out.2 = report scenario_globals dates ∧
    ∀ s, s ∈ dates ↔ s ∈ chain_dates [scenario_page1; scenario_page2]
                     ∧ in_range scenario_globals s = true.
Proof.
  destruct (get_expiry_dates_in_range scenario_globals
              (two_pages scenario_page1 scenario_page2) 2 [scenario_page1; scenario_page2])
    as [Hany Hchain].
  split; [exact Hany|]. apply Hchain.
  - reflexivity.
  - apply two_pages_chain; reflexivity.
  - reflexivity.
  - simpl. lia.
Defined.

Example scenario_prints_one_date :
  stdout (get_expiry_dates scenario_globals (two_pages scenario_page1 scenario_page2) 2
            no_effects).2 = report scenario_globals ["2025-02-01"].
Proof. by vm_compute. Qed.

(** ** A page with a bad status *)

(** C2. When a page of the chain reports a status other than OK, after
    any number of pages that reported OK, the fetch stops at that page: it
    has issued one request per page up to it, prints the one line that
    names the bad status and returns; none of the dates collected from the
    earlier pages is printed. *)
Theorem get_expiry_dates_bad_status g net before bad fuel :
  valid_range g = true →
  broken_chain g net (first_page_url g) before bad →
  forallb ok_page before = true →
  length before < fuel →
  let out := get_expiry_dates g net fuel no_effects in
  out.1 = Ok tt ∧
  stdout out.2 = [[Lit "Error: API returned status "; Fmt (status_of bad)]] ∧
  length (requests out.2) = S (length before).
Proof.
  intros Hrange Hchain Hok Hfuel.
  destruct (valid_range_parsed g Hrange) as (a & b & Ha & Hb).
  destruct (while_next_url_broken g net a b Ha Hb _ _ _ Hchain (first_page_url_truthy g) Hok
              fuel ∅ no_effects Hfuel) as (urls & Hlen & Hrun).
  cbn zeta. unfold get_expiry_dates, try_except. rewrite (bind_ok _ _ _ _ _ Hrun).
  simpl. done.
Qed.

Lemma two_pages_broken g p1 bad :
  truthy (cursor p1) = true → bad_status_page bad = true →
  broken_chain g (two_pages p1 bad) (first_page_url g) [p1] bad.
Proof. intros H1 H2. apply broken_later; [done..|]. by apply broken_here. Qed.

Lemma get_expiry_dates_bad_status_witness :
  let out := get_expiry_dates key_globals (two_pages june_march error_page) 2 no_effects in
  out.1 = Ok tt ∧
  stdout out.2 = [[Lit "Error: API returned status "; Fmt (status_of error_page)]] ∧
  length (requests out.2) = 2.
Proof.
  apply (get_expiry_dates_bad_status key_globals (two_pages june_march error_page)
           [june_march] error_page 2).
  - reflexivity.
  - apply two_pages_broken; reflexivity.
  - reflexivity.
  - simpl. lia.
Defined.

(** ** A chain without end *)

Lemma endless_chain_run g net pages fuel :
  valid_range g = true →
  endless_chain g net pages →
  (∀ i, ok_page (pages i) = true) →
  ∃ sent, length sent = fuel ∧
    get_expiry_dates g net fuel no_effects = (OutOfFuel, Effects [] [] sent []).
Proof.
  intros Hrange (urls & H0 & Hchain) Hok.
  destruct (valid_range_parsed g Hrange) as (a & b & Ha & Hb).
  destruct (while_next_url_endless g net a b Ha Hb urls pages Hchain Hok fuel 0 ∅ no_effects)
    as (sent & Hlen & Hrun).
  { rewrite H0. apply first_page_url_truthy. }
  exists sent. split; [done|].
  unfold get_expiry_dates, try_except, bind. rewrite <- H0, Hrun. done.
Qed.

(** C3, as amended. The loop has no bound on the number of pages and no
    error for exceeding one: on a chain whose every page reports OK and
    carries a cursor, the fetch never ends; after any number of turns it
    has issued that many requests, has printed nothing and is still in the
    loop. *)
Theorem get_expiry_dates_endless g net pages fuel :
  valid_range g = true →
  endless_chain g net pages →
  (∀ i, ok_page (pages i) = true) →
  let out := get_expiry_dates g net fuel no_effects in
  out.1 = OutOfFuel ∧ length (requests out.2) = fuel ∧ stdout out.2 = [].
Proof.
  intros Hrange Hchain Hok.
  destruct (endless_chain_run g net pages fuel Hrange Hchain Hok)
    as (sent & Hlen & Hrun).
  cbn zeta. by rewrite Hrun.
Qed.

Lemma endless_is_endless : endless_chain key_globals endless (λ _, endless_page).
Proof.
  exists (λ i, match i with
               | 0 => first_page_url key_globals
               | S _ => next_page_url key_globals (JStr "more")
               end).
  split; [done|]. intros i. by destruct i.
Qed.

Lemma get_expiry_dates_endless_witness :
  let out := get_expiry_dates key_globals endless 7 no_effects in
  out.1 = OutOfFuel ∧ length (requests out.2) = 7 ∧ stdout out.2 = [].
Proof.
  apply (get_expiry_dates_endless key_globals endless (λ _, endless_page) 7).
  - reflexivity.
  - exact endless_is_endless.
  - intros i. reflexivity.
Defined.

(** C3, counterexample. Every page of this network carries a cursor, and
    the fetch does not stop after any number of requests: whatever bound
    [max_pages] one picks, the run is still in its loop when it has issued
    [max_pages] requests, and it has failed with no error. *)
Lemma get_expiry_dates_no_page_limit :
  endless_chain key_globals endless (λ _, endless_page) ∧
  ∀ max_pages,
    let out := get_expiry_dates key_globals endless max_pages no_effects in
    out.1 = OutOfFuel ∧ length (requests out.2) = max_pages.
Proof.
  split; [exact endless_is_endless|]. intros max_pages.
  destruct (endless_chain_run key_globals endless (λ _, endless_page) max_pages)
    as (sent & Hlen & Hrun); [reflexivity|exact endless_is_endless|by intros|].
  cbn zeta. by rewrite Hrun.
Qed.

(** ** The asynchronous client *)

Lemma _make_request_returns session url w :
  ∃ w', _make_request session url w = (Ok (answer_record (session url)), w')
        ∧ requests w' = requests w ++ [url].
Proof.
  unfold _make_request, try_except, bind, get_json, log_request, lift, answer_record.
  destruct (session url) as [e|data]; simpl.
  - eauto.
  - destruct data as [| | | | |m]; simpl; eauto.
    unfold status_of. simpl.
    destruct (str_eq (default JNull (m !! "status")) "OK"); simpl; eauto.
Qed.

(** [_make_request] is the request sent, then [receive]. *)
Lemma _make_request_receive session url w :
  _make_request session url w = (log_request url ;; receive session url) w.
Proof.
  unfold _make_request, receive, try_except, bind, get_json, log_request. simpl.
  unfold lift. by destruct (session url).
Qed.

Lemma receive_returns session url w :
  ∃ w', receive session url w = (Ok (answer_record (session url)), w').
Proof.
  unfold receive, try_except, bind, lift, answer_record.
  destruct (session url) as [e|data]; simpl.
  - eauto.
  - destruct data as [| | | | |m]; simpl; eauto.
    unfold status_of. simpl.
    destruct (str_eq (default JNull (m !! "status")) "OK"); simpl; eauto.
Qed.

Lemma snapshot_args_dict contract w :
  is_dict contract = true → snapshot_args contract w = (Ok (contract_args contract), w).
Proof. by destruct contract. Qed.

Lemma tasks_created self session contracts :
  forallb is_dict contracts = true →
  ∀ (made : list (py json)) w,
  for_each (λ tasks contract,
              let* args := snapshot_args contract in
              let task := get_option_snapshot self session args.1 args.2 in
              ret (tasks ++ [task]))
           contracts made w =
  (Ok (made ++ ((λ c, get_option_snapshot self session (contract_args c).1 (contract_args c).2)
                  <$> contracts)), w).
Proof.
  induction contracts as [|c cs IH]; intros Hdict made w; simpl.
  - unfold ret. by rewrite app_nil_r.
  - apply andb_true_iff in Hdict as [Hc Hcs].
    unfold bind at 1. unfold bind at 1. rewrite (snapshot_args_dict c w Hc). simpl.
    rewrite (IH Hcs). by rewrite <- app_assoc.
Qed.

Lemma gather_snapshots self session contracts w :
  ∃ w',
    gather ((λ c, get_option_snapshot self session (contract_args c).1 (contract_args c).2)
              <$> contracts) w
    = (Ok (item_record self session <$> contracts), w').
Proof.
  revert w. induction contracts as [|c cs IH]; intros w.
  - simpl. eauto.
  - rewrite !fmap_cons. cbn [gather]. unfold get_option_snapshot at 1.
    destruct (_make_request_returns session
                (snapshot_url self (contract_args c).1 (contract_args c).2) w)
      as (w1 & Hreq & _).
    destruct (IH w1) as (w2 & Hrest).
    exists w2. unfold bind. rewrite Hreq, Hrest. done.
Qed.

Lemma get_multiple_snapshots_returns self session contracts w :
  forallb is_dict contracts = true →
  ∃ w', get_multiple_snapshots self session contracts w =
        (Ok (List.filter not_None (item_record self session <$> contracts)), w').
Proof.
  intros Hdict. unfold get_multiple_snapshots.
  rewrite (bind_ok _ _ _ _ _ (tasks_created self session contracts Hdict [] w)). simpl.
  destruct (gather_snapshots self session contracts w) as (w' & Hgather).
  exists w'. by rewrite (bind_ok _ _ _ _ _ Hgather).
Qed.

Lemma item_record_None self session contract :
  is_None (item_record self session contract)
  = item_fails self session contract || item_empty self session contract.
Proof.
  unfold item_record, item_fails, item_empty, answer_record.
  destruct (item_answer self session contract) as [e|data]; [done|].
  by destruct (str_eq (status_of data) "OK").
Qed.

Lemma filter_split_length {A} (p : A → bool) (l : list A) :
  length (List.filter p l) + length (List.filter (λ x, negb (p x)) l) = length l.
Proof.
  induction l as [|x l IH]; simpl; [done|]. destruct (p x); simpl; lia.
Qed.

Lemma filter_map_length {A B} (f : A → B) (p : B → bool) (l : list A) :
  length (List.filter p (f <$> l)) = length (List.filter (λ x, p (f x)) l).
Proof.
  induction l as [|x l IH]; [done|]. rewrite fmap_cons. cbn [List.filter].
  destruct (p (f x)); simpl; by rewrite IH.
Qed.

(** C4, as amended. For K items, of which M are omitted because they fail
    (transport error or a status other than OK) or because their answer
    reports OK without results, [get_multiple_snapshots] returns exactly
    K - M records: the [results] of the other items, in the order of
    the input, and no exception leaves the call. *)
Theorem get_multiple_snapshots_partial self session contracts w :
  forallb is_dict contracts = true →
  ∃ records w',
    get_multiple_snapshots self session contracts w = (Ok records, w') ∧
    records = List.filter not_None (item_record self session <$> contracts) ∧
    length records
    + length (List.filter (λ c, item_fails self session c || item_empty self session c)
                contracts)
    = length contracts.
Proof.
  intros Hdict.
  destruct (get_multiple_snapshots_returns self session contracts w Hdict) as (w' & Hrun).
  eexists _, w'. split; [exact Hrun|]. split; [done|].
  rewrite filter_map_length.
  rewrite <- (filter_split_length (λ c, not_None (item_record self session c)) contracts).
  f_equal. f_equal. clear. induction contracts as [|c cs IH]; simpl; [done|].
  unfold not_None at 1. rewrite negb_involutive, item_record_None.
  destruct (item_fails self session c || item_empty self session c); simpl; by rewrite IH.
Qed.

Lemma get_multiple_snapshots_partial_witness :
  ∃ records w',
    get_multiple_snapshots (new_client (JStr "KEY")) always_snapshot
      [spy_contract; spy_contract] no_effects = (Ok records, w') ∧
    records = List.filter not_None
                (item_record (new_client (JStr "KEY")) always_snapshot
                   <$> [spy_contract; spy_contract]) ∧
    length records
    + length (List.filter (λ c, item_fails (new_client (JStr "KEY")) always_snapshot c
                                || item_empty (new_client (JStr "KEY")) always_snapshot c)
                [spy_contract; spy_contract])
    = length [spy_contract; spy_contract].
Proof.
  apply (get_multiple_snapshots_partial (new_client (JStr "KEY")) always_snapshot
           [spy_contract; spy_contract] no_effects).
  reflexivity.
Defined.

(** C4, counterexample. One item, and it does not fail: the request goes
    through and the answer reports OK. Yet the answer has no results, so
    the call returns no record, where K - M is one. *)
Lemma get_multiple_snapshots_drops_empty_answer :
  item_fails (new_client (JStr "KEY")) ok_without_results spy_contract = false ∧
  (get_multiple_snapshots (new_client (JStr "KEY")) ok_without_results [spy_contract]
     no_effects).1 = Ok [].
Proof. split; by vm_compute. Qed.

(** A contract that is no dict raises before any request is made: the
    [get] calls of the loop that builds the tasks are outside every [try]. *)
Example get_multiple_snapshots_not_a_dict :
  get_multiple_snapshots (new_client (JStr "KEY")) always_snapshot [spy_contract; JNull]
    no_effects
  = (Raise (Builtin AttributeError), no_effects).
Proof. reflexivity. Qed.

(** ** The event loop under gather *)











(** A task stays the task of its contract, and its value is the one
    [_make_request] returns. *)
Lemma gather_step_task_for self session args l1 l2 :
  gather_step self session l1 l2 →
  Forall2 (task_for self session) args (tasks l1) →
  Forall2 (task_for self session) args (tasks l2).
Proof.
  intros Hstep Hinv.
  destruct Hstep as [ts w i u o Hi|ts w i url r w' Hi Hrecv]; simpl in *.
  - destruct (Forall2_lookup_r _ _ _ _ _ Hinv Hi) as (a & Ha & Hfor).
    rewrite <- (list_insert_id args i a Ha).
    apply Forall2_insert; [done|].
    destruct Hfor as [[= -> ->]|[[=]|[=]]]. right. by left.
  - destruct (Forall2_lookup_r _ _ _ _ _ Hinv Hi) as (a & Ha & Hfor).
    rewrite <- (list_insert_id args i a Ha).
    apply Forall2_insert; [done|].
    destruct Hfor as [[=]|[[= ->]|[=]]]. right. right.
    destruct (receive_returns session (snapshot_url self a.1 a.2) w) as (w1 & Hret).
    rewrite Hret in Hrecv. by injection Hrecv as <- _.
Qed.

Lemma created_task_for self session args :
  Forall2 (task_for self session) args (created args).
Proof.
  unfold created. induction args as [|a args IH]; simpl; constructor; [by left|done].
Qed.

Lemma gather_steps_task_for self session args w l :
  gather_steps self session (Loop (created args) w) l →
  Forall2 (task_for self session) args (tasks l).
Proof.
  intros Hsteps. remember (Loop (created args) w) as l0 eqn:Hl0.
  induction Hsteps as [|l1 l2 l3 _ IH Hstep]; subst.
  - apply created_task_for.
  - eapply gather_step_task_for; [done|]. by apply IH.
Qed.





(** ** The WebSocket dispatcher *)

Lemma handle_trade_prints record w :
  handle_trade (JObj record) w
  = (Ok tt, with_stdout w (handler_output
              (TradeEvent (field record "sym") (field record "p") (field record "s")))).
Proof. reflexivity. Qed.

Lemma handle_quote_prints record w :
  handle_quote (JObj record) w
  = (Ok tt, with_stdout w (handler_output
              (QuoteEvent (field record "sym") (field record "bp") (field record "ap")))).
Proof. reflexivity. Qed.

(** A record goes to the handler its tag names. *)
Lemma dispatch_classify record w :
  dispatch (JObj record) w = (Ok tt, with_stdout w (handler_output (classify record))).
Proof.
  unfold dispatch. rewrite (bind_ok _ _ _ _ _ (get_dict _ _ _ _)).
  unfold classify.
  destruct (str_eq (default JNull (record !! "ev")) "T") eqn:HT.
  { apply str_eq_true in HT. destruct (record !! "ev") as [v|]; simpl in HT; [|done].
    subst v. apply handle_trade_prints. }
  destruct (str_eq (default JNull (record !! "ev")) "Q") eqn:HQ.
  { apply str_eq_true in HQ. destruct (record !! "ev") as [v|]; simpl in HQ; [|done].
    subst v. apply handle_quote_prints. }
  assert (handler_output
            match record !! "ev" with
            | Some (JStr "T") =>
                TradeEvent (field record "sym") (field record "p") (field record "s")
            | Some (JStr "Q") =>
                QuoteEvent (field record "sym") (field record "bp") (field record "ap")
            | _ => Ignored
            end = []) as ->.
  { destruct (record !! "ev") as [v|]; [|done].
    destruct v as [| | |s| |]; try done. simpl in HT, HQ.
    apply String.eqb_neq in HT, HQ.
    repeat (destruct s as [|[[] [] [] [] [] [] [] []] s]; try done). }
  unfold ret. by rewrite with_stdout_nil.
Qed.

Lemma for_each_dispatch records w :
  for_each (λ _ item, dispatch item) (JObj <$> records) tt w
  = (Ok tt, with_stdout w (concat (handler_output ∘ classify <$> records))).
Proof.
  revert w. induction records as [|r rs IH]; intros w.
  - simpl. unfold ret. by rewrite with_stdout_nil.
  - rewrite !fmap_cons. cbn [for_each concat].
    rewrite (bind_ok _ _ _ _ _ (dispatch_classify r w)).
    rewrite IH. by rewrite with_stdout_app.
Qed.

(** C7. For a decoded frame that is a list of event records, [on_message]
    prints the frame and then handles the records one by one, in order,
    each according to its own [ev] tag alone: a record tagged [T] goes to
    the trade handler, which reads [sym], [p] and [s]; a record tagged [Q]
    goes to the quote handler; a record with any other tag, or none, is
    passed over. The call returns without an error line. *)
Theorem on_message_routes_by_tag (records : list (gmap string json)) w :
  on_message (inr (JList (JObj <$> records))) w
  = (Ok tt, with_stdout w ([Lit "Received: "; Fmt (JList (JObj <$> records))]
                           :: concat (handler_output ∘ classify <$> records))).
Proof.
  unfold on_message, try_except, bind. cbn [lift ret print].
  rewrite for_each_dispatch. unfold with_stdout. simpl. by rewrite <- app_assoc.
Qed.

Lemma on_message_routes_by_tag_witness :
  on_message (inr (JList (JObj <$> [aapl_trade; other_event]))) no_effects
  = (Ok tt, with_stdout no_effects
              ([Lit "Received: "; Fmt (JList (JObj <$> [aapl_trade; other_event]))]
               :: concat (handler_output ∘ classify <$> [aapl_trade; other_event]))).
Proof. exact (on_message_routes_by_tag [aapl_trade; other_event] no_effects). Defined.

Example classify_scenario :
  classify aapl_trade = TradeEvent (JStr "AAPL") (JNum (Float float_150_2)) (JNum (Int 100))
  ∧ classify other_event = Ignored
  ∧ on_message (inr (JList [JObj aapl_trade; JObj other_event])) no_effects
    = (Ok tt, Effects [[Lit "Received: "; Fmt (JList [JObj aapl_trade; JObj other_event])];
                        [Lit "Trade: "; Fmt (JStr "AAPL"); Lit " - $"; Fmt (JNum (Float float_150_2));
                         Lit " - Size: "; Fmt (JNum (Int 100))]] [] [] []).
Proof. split_and!; by vm_compute. Qed.

(** An item that is no dict ends the handling of the frame with an error
    line; the records after it are not handled. *)
Example on_message_not_a_record :
  on_message (inr (JList [JNum (Int 1); JObj aapl_trade])) no_effects
  = (Ok tt, Effects [[Lit "Received: "; Fmt (JList [JNum (Int 1); JObj aapl_trade])];
                      [Lit "Error processing message: "; ExcText AttributeError]] [] [] []).
Proof. reflexivity. Qed.

(** ** The price of an option snapshot *)

(** The positive numbers: the ints above 0, and the floats with a plus
    sign that are no zero and no NaN, the infinity among them. *)
Lemma is_positive_spec n :
  is_positive n = true ↔
  match n with
  | Int z => (0 < z)%Z
  | Float (S754_finite false _ _) | Float (S754_infinity false) => True
  | Float _ => False
  end.
Proof.
  destruct n as [z|[[]|[]| |[] m e]]; simpl; try (by split);
    try (split; [discriminate|done]).
  apply Z.ltb_lt.
Qed.

Lemma or_overflow_raises x e : or_overflow x = inl e → e = Builtin OverflowError.
Proof. destruct x; simpl; congruence. Qed.

Lemma to_float_raises n e : to_float n = inl e → e = Builtin OverflowError.
Proof. destruct n as [z|x]; [apply or_overflow_raises|discriminate]. Qed.







(** The average of the floats 1.23 and 1.45 is the float below 1.34, the
    one printed 1.3399999999999999; ints are added before anything is
    rounded. *)
Example average_rounds :
  average (Float float_1_23) (Float float_1_45) = inr float_below_1_34 ∧
  average (Int 3) (Int 4) = inr (S754_finite false 7881299347898368 (-51)) ∧
  average (Int (2 ^ 1024 - 2 ^ 971)) (Int (2 ^ 1024 - 2 ^ 971))
  = inr (S754_finite false 9007199254740991 971) ∧
  average (Int (2 ^ 1024)) (Int (2 ^ 1024)) = inl (Builtin OverflowError) ∧
  average (Float (S754_finite false 9007199254740991 971))
          (Float (S754_finite false 9007199254740991 971))
  = inr (S754_infinity false).
Proof. split_and!; vm_compute; reflexivity. Qed.

Example option_price_mid :
  option_price (JObj quoted_snapshot) no_effects
  = (Ok (JNum (Float float_below_1_34)), no_effects).
Proof. vm_compute. reflexivity. Qed.

Example option_price_fallback :
  option_price (JObj unquoted_snapshot) no_effects
  = (Ok (JNum (Float float_1_34)), no_effects).
Proof. reflexivity. Qed.

(** ** get_option_ticker *)

(** The function from the resolution of the key on. *)
Lemma get_option_ticker_unfold env underlying expiration strike option_type api_key w :
  get_option_ticker env underlying expiration strike option_type api_key w =
  if negb (valid_option_type option_type) then
    (Raise (Raised ValueError [Lit "option_type must be either 'call' or 'put'"]), w)
  else
    match resolved_key env api_key with
    | None =>
        (Raise (Raised ValueError
                  [Lit "No API key provided and POLYGON_API_KEY not found in environment"]), w)
    | Some key =>
        match new_RESTClient env key with
        | inl e => (Raise e, w)
        | inr client =>
            match client (Query underlying expiration strike (lower option_type) 1) with
            | inl e =>
                (Raise (Raised RuntimeError
                          (Lit "Error fetching option contract: " :: str_exn e)), w)
            | inr [] =>
                (Raise (Raised RuntimeError
                          [Lit "Error fetching option contract: ";
                           Lit "No "; Fmt (JStr option_type); Lit " contract found for ";
                           Fmt (JStr underlying); Lit " "; Lit "expiring ";
                           Fmt (JStr expiration); Lit " at strike "; Fmt (JNum strike)]), w)
            | inr (first :: _) => (Ok (ticker first), w)
            end
        end
    end.
Proof.
  unfold get_option_ticker. destruct (valid_option_type option_type); simpl; [|done].
  unfold resolved_key, bind.
  destruct api_key as [key|]; simpl in *.
  - unfold lift. destruct (new_RESTClient env key) as [e|client]; [done|]. simpl.
    unfold try_except, bind, lift.
    destruct (client _) as [e|[|first rest]]; done.
  - destruct (environ_key env) as [key|]; simpl in *; [|done].
    destruct (String.eqb key EmptyString); simpl in *; [done|].
    unfold lift. destruct (new_RESTClient env key) as [e|client]; [done|]. simpl.
    unfold try_except, bind, lift.
    destruct (client _) as [e|[|first rest]]; done.
Qed.

(** C9. Provided the constructor of the SDK's client raises no
    [ValueError] of its own: when the listing succeeds and is empty the
    function raises [RuntimeError], the [ValueError] raised inside the [try]
    being caught and wrapped; and a [ValueError] leaves the function only
    for an option type that is neither call nor put, or for a key that is
    neither passed nor set in the environment. *)
Theorem get_option_ticker_errors env underlying expiration strike w :
  (∀ key e, new_RESTClient env key = inl e → class_of e ≠ ValueError) →
  (∀ option_type api_key key client,
     valid_option_type option_type = true →
     resolved_key env api_key = Some key →
     new_RESTClient env key = inr client →
     client (Query underlying expiration strike (lower option_type) 1) = inr [] →
     ∃ msg, get_option_ticker env underlying expiration strike option_type api_key w
            = (Raise (Raised RuntimeError msg), w)) ∧
  (∀ option_type api_key e w',
     get_option_ticker env underlying expiration strike option_type api_key w = (Raise e, w') →
     class_of e = ValueError →
     valid_option_type option_type = false ∨ resolved_key env api_key = None).
Proof.
  intros Hctor. split.
  - intros option_type api_key key client Hvalid Hkey Hclient Hempty.
    rewrite get_option_ticker_unfold, Hvalid, Hkey, Hclient, Hempty. simpl. eauto.
  - intros option_type api_key e w'. rewrite get_option_ticker_unfold.
    destruct (valid_option_type option_type); simpl; [|auto].
    destruct (resolved_key env api_key) as [key|]; [|auto].
    destruct (new_RESTClient env key) as [e'|client] eqn:Hclient.
    + intros [= <- <-] Hclass. by destruct (Hctor key e' Hclient).
    + destruct (client _) as [e'|[|first rest]]; intros [= <- <-]; discriminate.
Qed.

Lemma get_option_ticker_errors_witness :
  (∀ option_type api_key key client,
     valid_option_type option_type = true →
     resolved_key empty_listing api_key = Some key →
     new_RESTClient empty_listing key = inr client →
     client (Query "SPY" "2025-01-15" (Int 500) (lower option_type) 1) = inr [] →
     ∃ msg, get_option_ticker empty_listing "SPY" "2025-01-15" (Int 500) option_type api_key no_effects
            = (Raise (Raised RuntimeError msg), no_effects)) ∧
  (∀ option_type api_key e w',
     get_option_ticker empty_listing "SPY" "2025-01-15" (Int 500) option_type api_key no_effects
     = (Raise e, w') →
     class_of e = ValueError →
     valid_option_type option_type = false ∨ resolved_key empty_listing api_key = None).
Proof.
  apply (get_option_ticker_errors empty_listing "SPY" "2025-01-15" (Int 500) no_effects).
  intros key e H. discriminate H.
Defined.

Example get_option_ticker_empty :
  (get_option_ticker empty_listing "SPY" "2025-01-15" (Int 500) "call" None no_effects).1
  = Raise (Raised RuntimeError
             [Lit "Error fetching option contract: ";
              Lit "No "; Fmt (JStr "call"); Lit " contract found for ";
              Fmt (JStr "SPY"); Lit " "; Lit "expiring ";
              Fmt (JStr "2025-01-15"); Lit " at strike "; Fmt (JNum (Int 500))]).
Proof. reflexivity. Qed.

Example get_option_ticker_bad_type :
  (get_option_ticker empty_listing "SPY" "2025-01-15" (Int 500) "straddle" None no_effects).1
  = Raise (Raised ValueError [Lit "option_type must be either 'call' or 'put'"]).
Proof. reflexivity. Qed.

(** ** fetch_financials.main *)

(** C10, as amended. [main] returns 1 without a request when
    POLYGON_API_KEY is missing or empty. With a key that is valid text it
    issues one request; on a decoded answer it stores the payload in
    msft-financials.json and returns 0; on an [HTTPError] it returns 2,
    unless reading the body of the error raises; on a [URLError] it
    returns 3. Everything else leaves [main] as an exception: what reading
    the body of an error raises, any failure that is no [URLError] (a
    timeout or a reset while the answer is read, a body that is no JSON),
    and the [UnicodeEncodeError] of a key that is no UTF-8, raised before
    any request. Only the return of 0 writes a file. *)
Theorem main_exit_codes (env : fetch_financials.environment) w :
  let out := fetch_financials.main env w in
  match fetch_financials.getenv env with
  | None | Some EmptyString =>
      out.1 = Ok 1%Z ∧ requests out.2 = requests w ∧ files out.2 = files w
  | Some api_key =>
      if fetch_financials.valid_utf8 api_key then
        requests out.2 = requests w ++ [fetch_financials.financials_url api_key] ∧
        match fetch_financials.urlopen env (fetch_financials.financials_url api_key) with
        | fetch_financials.HTTPError _ _ (Some (inl e)) =>
            out.1 = Raise e ∧ files out.2 = files w
        | fetch_financials.HTTPError _ _ _ => out.1 = Ok 2%Z ∧ files out.2 = files w
        | fetch_financials.URLError _ => out.1 = Ok 3%Z ∧ files out.2 = files w
        | fetch_financials.Response payload =>
            out.1 = Ok 0%Z ∧
            files out.2 = files w ++ [(fetch_financials.output_path env, payload)]
        | fetch_financials.Failure e => out.1 = Raise e ∧ files out.2 = files w
        end
      else
        out.1 = Raise (Builtin fetch_financials.UnicodeEncodeError) ∧
        requests out.2 = requests w ∧ files out.2 = files w
  end.
Proof.
  cbn zeta. unfold fetch_financials.main, bind.
  destruct (fetch_financials.getenv env) as [[|c key]|];
    [by destruct (fetch_financials.dotenv_installed env)|
    |by destruct (fetch_financials.dotenv_installed env)].
  cbn [default from_option id of_env truthy negb String.eqb].
  destruct (fetch_financials.valid_utf8 (String c key));
    [|by destruct (fetch_financials.dotenv_installed env)].
  destruct (fetch_financials.dotenv_installed env); cbn -[fetch_financials.financials_url];
    (destruct (fetch_financials.urlopen env _) as [payload|code reason [[e|text]|]|reason|e];
     cbn; done).
Qed.

Lemma main_exit_codes_witness :
  let out := fetch_financials.main keyed_environment no_effects in
  requests out.2 = [fetch_financials.financials_url "KEY"] ∧
  out.1 = Ok 0%Z ∧
  files out.2 = [("/srv/scripts/msft-financials.json", JObj ∅)].
Proof. exact (main_exit_codes keyed_environment no_effects). Defined.

(** The claim as the specification words it does not hold: on an HTTP
    error whose body cannot be read [main] raises, after the line about
    the error; a timeout while the answer is read is a failure of the
    transport and raises as well, where 3 was claimed. *)
Lemma main_lets_failures_out :
  fetch_financials.main unreadable_error no_effects
  = (Raise (Builtin (OtherError "ConnectionResetError")),
     Effects [] [[Lit "HTTP error "; Fmt (JNum (Int 502)); Lit ": "; Fmt (JStr "Bad Gateway")]]
             [fetch_financials.financials_url "KEY"] []) ∧
  (fetch_financials.main read_timeout no_effects).1
  = Raise (Builtin (OtherError "TimeoutError")).
Proof. split; reflexivity. Qed.

Example main_undecodable_key :
  fetch_financials.main undecodable_key no_effects
  = (Raise (Builtin fetch_financials.UnicodeEncodeError), no_effects).
Proof. reflexivity. Qed.

Example main_without_key :
  fetch_financials.main
    (fetch_financials.Env true None None "/srv/scripts"
       (λ _, fetch_financials.Response (JObj ∅))) no_effects
  = (Ok 1%Z, Effects [] [[Lit "POLYGON_API_KEY environment variable is required"]] [] []).
Proof. reflexivity. Qed.

Example financials_url_text :
  fetch_financials.financials_url "a b/c"
  = [Fmt (JStr "https://api.polygon.io/vX/reference/financials"); Lit "?";
     Fmt (JStr "ticker=MSFT&timeframe=quarterly&limit=4&sort=period_of_report_date&order=desc&apiKey=a+b%2Fc")].
Proof. reflexivity. Qed.

(** * More of the sources *)

(** ** _make_request and the requests built on it *)

(** X1. [_make_request] never raises and sends exactly one request. It
    returns the [results] of an answer that reports OK and [None] for
    everything else; it prints its error line when the request or the
    decoding raises or the body is no dict, and nothing at all when the
    answer is a dict with another status. *)
Theorem _make_request_outcomes session url w :
  ∃ r w',
    _make_request session url w = (Ok r, w') ∧
    requests w' = requests w ++ [url] ∧
    match session url with
    | inl e =>
        r = JNull ∧ stdout w' = stdout w ++ [Lit "Error making request: " :: str_exn e]
    | inr (JObj m) =>
        stdout w' = stdout w ∧
        r = if str_eq (default JNull (m !! "status")) "OK"
            then default JNull (m !! "results") else JNull
    | inr _ =>
        r = JNull ∧
        stdout w' = stdout w ++ [[Lit "Error making request: "; ExcText AttributeError]]
    end.
Proof.
  unfold _make_request, try_except, bind, get_json, log_request, lift.
  destruct (session url) as [e|data]; simpl.
  - do 2 eexists. split_and!; reflexivity.
  - destruct data as [| | | | |m]; simpl; try (do 2 eexists; split_and!; reflexivity).
    destruct (str_eq (default JNull (m !! "status")) "OK"); simpl;
      do 2 eexists; split_and!; reflexivity.
Qed.

(** X2. [get_option_contracts] does not paginate: on a chain of any
    number of pages whose first page reports OK it sends one request and
    returns the [results] of the first page alone. *)
Theorem get_option_contracts_first_page_only g self session symbol expiry first rest w :
  chain g session (contracts_url self symbol expiry) (first :: rest) →
  ok_page first = true →
  ∃ w',
    get_option_contracts self session symbol expiry w
    = (Ok (page_field first "results" JNull), w') ∧
    requests w' = requests w ++ [contracts_url self symbol expiry].
Proof.
  intros Hchain Hok.
  assert (session (contracts_url self symbol expiry) = inr first) as Hnet
    by (inversion Hchain; done).
  unfold get_option_contracts.
  destruct (_make_request_returns session (contracts_url self symbol expiry) w)
    as (w' & Hrun & Hreq).
  exists w'. split; [|done]. rewrite Hrun, Hnet. unfold answer_record.
  by rewrite (ok_page_status _ Hok).
Qed.

Lemma get_option_contracts_first_page_only_witness :
  ∃ w',
    get_option_contracts (new_client (JStr "KEY")) (two_pages june_march march_again)
      (JStr "SPY") (JStr "2025-06-20") no_effects
    = (Ok (page_field june_march "results" JNull), w') ∧
    requests w' = requests no_effects
                  ++ [contracts_url (new_client (JStr "KEY")) (JStr "SPY") (JStr "2025-06-20")].
Proof.
  apply (get_option_contracts_first_page_only key_globals (new_client (JStr "KEY"))
           (two_pages june_march march_again) (JStr "SPY") (JStr "2025-06-20")
           june_march [march_again] no_effects).
  - apply chain_more; [reflexivity..|]. by apply chain_last.
  - reflexivity.
Defined.

Lemma subscript_missing m key w :
  m !! key = None → subscript (JObj m) key w = (Raise (Builtin (OtherError "KeyError")), w).
Proof. intros H. unfold subscript. by rewrite H. Qed.

(** X3. [get_last_trade] returns [None], without raising, whenever
    [_make_request] gives it a falsy value (a failed request, a status
    other than OK, empty results). But when the answer reports OK with a
    non-empty dict that lacks [p], [s] or [t], the subscript raises
    [KeyError] and nothing catches it: the exception leaves the call. *)
Theorem get_last_trade_edges {T} (fromtimestamp : float → exn + T) self session symbol w :
  let result := answer_record (session (last_trade_url self symbol)) in
  let out := get_last_trade fromtimestamp self session symbol w in
  (truthy result = false → out.1 = Ok None) ∧
  (∀ m, result = JObj m → truthy result = true →
        m !! "p" = None ∨ m !! "s" = None ∨ m !! "t" = None →
        out.1 = Raise (Builtin (OtherError "KeyError"))).
Proof.
  cbn zeta. unfold get_last_trade.
  destruct (_make_request_returns session (last_trade_url self symbol) w)
    as (w' & Hrun & _).
  run Hrun. split.
  - intros ->. done.
  - intros m Hm Htruthy Hmissing. rewrite Htruthy, Hm. unfold bind, subscript.
    destruct (m !! "p") as [p|]; [|done]. simpl.
    destruct (m !! "s") as [s|]; [|done]. simpl.
    destruct (m !! "t") as [t|]; [|done]. simpl.
    by destruct Hmissing as [?|[?|?]].
Qed.

Lemma get_last_trade_edges_witness :
  (get_last_trade (λ q, inr q) (new_client (JStr "KEY")) ok_without_results (JStr "SPY")
     no_effects).1 = Ok None ∧
  (get_last_trade (λ q, inr q) (new_client (JStr "KEY")) (λ _, inr trade_without_price)
     (JStr "SPY") no_effects).1 = Raise (Builtin (OtherError "KeyError")).
Proof.
  split.
  - apply (get_last_trade_edges (λ q, inr q) (new_client (JStr "KEY")) ok_without_results
             (JStr "SPY") no_effects). reflexivity.
  - eapply (get_last_trade_edges (λ q, inr q) (new_client (JStr "KEY"))
              (λ _, inr trade_without_price) (JStr "SPY") no_effects).
    + reflexivity.
    + reflexivity.
    + left. reflexivity.
Defined.

(** ** get_multiple_snapshots: what is sent *)

Lemma bind_raised {A B} (m : py A) (k : A → py B) w e w' :
  m w = (Raise e, w') → bind m k w = (Raise e, w').
Proof. intros H. unfold bind. by rewrite H. Qed.

Lemma tasks_not_created self session contracts :
  forallb is_dict contracts = false →
  ∀ (made : list (py json)) w,
  for_each (λ tasks contract,
              let* args := snapshot_args contract in
              let task := get_option_snapshot self session args.1 args.2 in
              ret (tasks ++ [task]))
           contracts made w = (Raise (Builtin AttributeError), w).
Proof.
  induction contracts as [|c cs IH]; intros Hdict made w; [done|].
  cbn [forallb] in Hdict. cbn [for_each]. unfold bind at 1. unfold bind at 1.
  destruct (is_dict c) eqn:Hc.
  - rewrite (snapshot_args_dict c w Hc). simpl. by apply IH.
  - clear Hdict IH. by destruct c.
Qed.

(** X4. When one of the contracts is no dict, [get_multiple_snapshots]
    raises [AttributeError] and sends no request at all, not even for the
    contracts before the bad one: the tasks are built before any of them
    runs. *)
Theorem get_multiple_snapshots_all_or_nothing self session contracts w :
  forallb is_dict contracts = false →
  get_multiple_snapshots self session contracts w = (Raise (Builtin AttributeError), w).
Proof.
  intros Hdict. unfold get_multiple_snapshots.
  apply bind_raised. apply (tasks_not_created self session contracts Hdict [] w).
Qed.

Lemma get_multiple_snapshots_all_or_nothing_witness :
  get_multiple_snapshots (new_client (JStr "KEY")) always_snapshot
    [spy_contract; JStr "O:SPY250117C00500000"; spy_contract] no_effects
  = (Raise (Builtin AttributeError), no_effects).
Proof.
  apply (get_multiple_snapshots_all_or_nothing (new_client (JStr "KEY")) always_snapshot
           [spy_contract; JStr "O:SPY250117C00500000"; spy_contract] no_effects).
  reflexivity.
Defined.

Lemma gather_snapshots_requests self session contracts w :
  ∃ w',
    gather ((λ c, get_option_snapshot self session (contract_args c).1 (contract_args c).2)
              <$> contracts) w
    = (Ok (item_record self session <$> contracts), w') ∧
    requests w' = requests w ++ (item_url self <$> contracts).
Proof.
  revert w. induction contracts as [|c cs IH]; intros w.
  - exists w. split; [done|]. simpl. by rewrite app_nil_r.
  - rewrite !fmap_cons. cbn [gather]. unfold get_option_snapshot at 1.
    destruct (_make_request_returns session
                (snapshot_url self (contract_args c).1 (contract_args c).2) w)
      as (w1 & Hreq & Hsent).
    destruct (IH w1) as (w2 & Hrest & Hsent2).
    exists w2. split.
    + unfold bind. rewrite Hreq, Hrest. done.
    + rewrite Hsent2, Hsent, <- app_assoc. done.
Qed.

Lemma receive_requests session url w r w' :
  receive session url w = (r, w') → requests w' = requests w.
Proof.
  unfold receive, try_except, bind, lift.
  destruct (session url) as [e|data]; simpl; [by intros [= _ <-]|].
  destruct data as [| | | | |m]; simpl; try by intros [= _ <-].
  destruct (str_eq (default JNull (m !! "status")) "OK"); by intros [= _ <-].
Qed.

Lemma sent_requests_insert self args ts i a t t' :
  length args = length ts →
  args !! i = Some a → ts !! i = Some t →
  task_request self a t = [] →
  sent_requests self args (<[i := t']> ts)
  ≡ₚ sent_requests self args ts ++ task_request self a t'.
Proof.
  intros Hlen Ha Ht Hnone. unfold sent_requests.
  rewrite <- (take_drop_middle args i a Ha) at 1 2.
  rewrite insert_take_drop by (by eapply lookup_lt_Some).
  rewrite <- (take_drop_middle ts i t Ht) at 3.
  assert (length (take i args) = length (take i ts)) as Htake.
  { rewrite !length_take. lia. }
  rewrite !zip_with_app by done. simpl. rewrite !concat_app. simpl.
  rewrite Hnone. simpl.
  rewrite <- !app_assoc. apply Permutation_app_head.
  apply Permutation_app_comm.
Qed.

Lemma sent_requests_insert_same self args ts i a t t' :
  length args = length ts →
  args !! i = Some a → ts !! i = Some t →
  task_request self a t' = task_request self a t →
  sent_requests self args (<[i := t']> ts) = sent_requests self args ts.
Proof.
  intros Hlen Ha Ht Hsame. unfold sent_requests.
  rewrite <- (take_drop_middle args i a Ha).
  rewrite insert_take_drop by (by eapply lookup_lt_Some).
  rewrite <- (take_drop_middle ts i t Ht) at 3.
  assert (length (take i args) = length (take i ts)) as Htake.
  { rewrite !length_take. lia. }
  rewrite !zip_with_app by done. simpl. by rewrite Hsame.
Qed.

(** The log holds the requests of the tasks that have sent theirs. *)
Lemma gather_steps_requests self session args w l :
  gather_steps self session (Loop (created args) w) l →
  requests (world l) ≡ₚ requests w ++ sent_requests self args (tasks l).
Proof.
  intros Hsteps.
  remember (Loop (created args) w) as l0 eqn:Hl0.
  induction Hsteps as [|l1 l2 l3 Hsteps IH Hstep]; subst.
  - simpl. unfold sent_requests, created.
    assert (concat (zip_with (task_request self) args ((λ a, Created a.1 a.2) <$> args)) = [])
      as ->; [|by rewrite app_nil_r].
    clear. induction args as [|a args IH]; [done|]. rewrite fmap_cons. simpl. exact IH.
  - specialize (IH eq_refl).
    pose proof (gather_steps_task_for _ _ _ _ _ Hsteps) as Hfor.
    pose proof (Forall2_length _ _ _ Hfor) as Hlen.
    destruct Hstep as [ts w1 i u o Hi|ts w1 i url r w' Hi Hrecv]; simpl in *.
    + destruct (Forall2_lookup_r _ _ _ _ _ Hfor Hi) as (a & Ha & Ht).
      destruct Ht as [[= -> ->]|[[=]|[=]]]. subst url.
      rewrite (sent_requests_insert self args ts i a (Created a.1 a.2)
                 (Awaiting (snapshot_url self a.1 a.2)) Hlen Ha Hi eq_refl).
      simpl. rewrite IH. by rewrite <- app_assoc.
    + destruct (Forall2_lookup_r _ _ _ _ _ Hfor Hi) as (a & Ha & Ht).
      rewrite (receive_requests _ _ _ _ _ Hrecv).
      rewrite (sent_requests_insert_same self args ts i a (Awaiting url) (Done r) Hlen Ha Hi eq_refl).
      exact IH.
Qed.

Lemma sent_requests_done self session args ts rs :
  Forall2 (task_for self session) args ts →
  task_results ts = Some rs →
  sent_requests self args ts = (λ a, snapshot_url self a.1 a.2) <$> args.
Proof.
  unfold sent_requests. intros Hfor. revert rs.
  induction Hfor as [|a t args ts Ht Hfor IH]; intros rs Hrs; [done|].
  rewrite fmap_cons. simpl in *.
  destruct t as [| |r]; try discriminate.
  destruct (task_results ts) as [rs'|]; [|discriminate].
  simpl. f_equal. by eapply IH.
Qed.

(** X5. For contracts that are dicts [get_multiple_snapshots] sends one
    request per contract, to the URL of that contract, failed items
    included and none twice; and whatever the order in which the event
    loop runs the tasks, a run that finishes has sent exactly these
    requests. *)
Theorem get_multiple_snapshots_one_request_each self session contracts w :
  forallb is_dict contracts = true →
  (∃ records w',
     get_multiple_snapshots self session contracts w = (Ok records, w') ∧
     requests w' = requests w ++ (item_url self <$> contracts)) ∧
  (∀ l rs,
     gather_steps self session (Loop (created (contract_args <$> contracts)) w) l →
     task_results (tasks l) = Some rs →
     requests (world l) ≡ₚ requests w ++ (item_url self <$> contracts)).
Proof.
  intros Hdict. split.
  - unfold get_multiple_snapshots.
    run (tasks_created self session contracts Hdict [] w). simpl.
    destruct (gather_snapshots_requests self session contracts w) as (w' & Hgather & Hsent).
    eexists _, w'. split; [|exact Hsent]. by run Hgather.
  - intros l rs Hsteps Hrs.
    rewrite (gather_steps_requests _ _ _ _ _ Hsteps).
    rewrite (sent_requests_done self session _ _ rs
               (gather_steps_task_for _ _ _ _ _ Hsteps) Hrs).
    by rewrite <- list_fmap_compose.
Qed.

Lemma get_multiple_snapshots_one_request_each_witness :
  (∃ records w',
     get_multiple_snapshots (new_client (JStr "KEY")) ok_without_results
       [spy_contract; spy_contract] no_effects = (Ok records, w') ∧
     requests w' = requests no_effects
                   ++ (item_url (new_client (JStr "KEY")) <$> [spy_contract; spy_contract])) ∧
  (∀ l rs,
     gather_steps (new_client (JStr "KEY")) ok_without_results
       (Loop (created (contract_args <$> [spy_contract; spy_contract])) no_effects) l →
     task_results (tasks l) = Some rs →
     requests (world l)
     ≡ₚ requests no_effects
        ++ (item_url (new_client (JStr "KEY")) <$> [spy_contract; spy_contract])).
Proof.
  apply (get_multiple_snapshots_one_request_each (new_client (JStr "KEY")) ok_without_results
           [spy_contract; spy_contract] no_effects).
  reflexivity.
Defined.

(** ** get_expiry_dates: failures *)

Section Failures.

Context (g : globals) (net : network) (a b : datetime).
Hypothesis Hstart : parse_date (START_DATE g) = Some a.
Hypothesis Hend : parse_date (END_DATE g) = Some b.

(** The loop walks the pages that lead to [url'] and goes on from there. *)
Lemma while_next_url_leads :
  ∀ url before url', leads_to g net url before url' →
  fstring_truthy url = true → forallb ok_page before = true →
  ∀ fuel acc w,
  ∃ urls, length urls = length before ∧ fstring_truthy url' = true ∧
    while_next_url g net (length before + fuel) url acc w =
    while_next_url g net fuel url' (acc ∪ list_to_set (dates_in_range g before))
      (with_requests w urls).
Proof.
  intros url before url' Hleads.
  induction Hleads as [url|url data before url' Hnet Hcur Hrest IH];
    intros Hurl Hok fuel acc w.
  - exists []. split_and!; [done..|].
    rewrite with_requests_nil. f_equal. unfold dates_in_range, chain_dates. simpl.
    by rewrite (right_id_L ∅ (∪)).
  - simpl in Hok. apply andb_true_iff in Hok as [Hdata Hpages].
    cbn [length Nat.add].
    rewrite (while_next_url_ok_page g net a b Hstart Hend _ url data acc w Hurl Hnet Hdata).
    cbn zeta. rewrite Hcur.
    destruct (IH (next_page_url_truthy _ _) Hpages fuel
                (acc ∪ list_to_set (dates_in_range g [data])) (with_requests w [url]))
      as (urls & Hlen & Htruthy & Hrun).
    exists (url :: urls). split_and!; [simpl; by rewrite Hlen|done|].
    rewrite Hrun, with_requests_app. simpl.
    rewrite (dates_in_range_cons g data before), list_to_set_app_L.
    by rewrite (assoc_L (∪)).
Qed.

Lemma while_next_url_transport fuel url e acc w :
  fstring_truthy url = true → net url = inl e →
  while_next_url g net (S fuel) url acc w = (Raise e, with_requests w [url]).
Proof.
  intros Hurl Hnet. cbn [while_next_url]. rewrite Hurl.
  apply bind_raised. unfold get_json, bind, log_request, lift. by rewrite Hnet.
Qed.

(** A page with a malformed record makes the loop over its records
    raise. *)
Lemma for_each_collect_malformed records acc w :
  existsb malformed_record records = true →
  ∃ e, for_each (collect_expiry a b) records acc w = (Raise e, w).
Proof.
  revert acc. induction records as [|r rs IH]; intros acc Hbad; [done|].
  cbn [existsb] in Hbad. cbn [for_each]. unfold bind.
  destruct (collect_expiry a b acc r w) as [[acc'| |] w'] eqn:Hr;
    destruct (collect_expiry_in_range g a b Hstart Hend acc r w _ _ Hr) as [-> _].
  - destruct (malformed_record r) eqn:Hmal.
    + exfalso. clear IH Hbad. destruct r as [| | | | |m]; try discriminate.
      unfold collect_expiry in Hr. rewrite (bind_ok _ _ _ _ _ (get_dict _ _ _ _)) in Hr.
      simpl in Hmal. destruct (m !! "expiration_date") as [[| | |s| |]|]; try discriminate.
      apply andb_true_iff in Hmal as [Hs Hparse]. simpl in Hr. rewrite Hs in Hr.
      apply negb_true_iff, bool_decide_eq_false in Hparse.
      unfold bind, strptime in Hr.
      destruct (parse_date s) as [d|]; [|discriminate]. destruct Hparse. eauto.
    + by apply IH.
  - eauto.
  - exfalso. clear IH Hbad. unfold collect_expiry, bind in Hr.
    destruct (get r "expiration_date" JNull w) as [[v| |] w1] eqn:Hget; try discriminate.
    + destruct (truthy v); [|discriminate].
      destruct (strptime v w1) as [[d| |] w2] eqn:Hparse; try discriminate.
      * destruct (datetime_le a d && datetime_le d b); discriminate.
      * destruct v as [| | |s| |]; try discriminate.
        unfold strptime in Hparse. destruct (parse_date s); discriminate.
    + destruct r; discriminate.
Qed.

Lemma while_next_url_malformed fuel url m records acc w :
  fstring_truthy url = true → net url = inr (JObj m) →
  m !! "status" = Some (JStr "OK") → m !! "results" = Some (JList records) →
  existsb malformed_record records = true →
  ∃ e, while_next_url g net (S fuel) url acc w = (Raise e, with_requests w [url]).
Proof.
  intros Hurl Hnet Hstatus Hresults Hbad. cbn [while_next_url]. rewrite Hurl.
  run (get_json_ok net url (JObj m) w Hnet).
  run (get_dict m "status" JNull (with_requests w [url])). rewrite Hstatus. simpl.
  run (strptime_parsed _ _ (with_requests w [url]) Hstart).
  run (strptime_parsed _ _ (with_requests w [url]) Hend).
  run (get_dict m "results" (JList []) (with_requests w [url])). rewrite Hresults. simpl.
  unfold bind at 1. unfold iter, ret.
  destruct (for_each_collect_malformed records acc (with_requests w [url]) Hbad) as (e & Hfor).
  exists e. by apply bind_raised.
Qed.

End Failures.

Lemma get_expiry_dates_aborts g net before url' e fuel :
  valid_range g = true →
  leads_to g net (first_page_url g) before url' →
  forallb ok_page before = true →
  (∀ f acc w, fstring_truthy url' = true →
     while_next_url g net (S f) url' acc w = (Raise e, with_requests w [url'])) →
  ∃ urls, length urls = S (length before) ∧
    get_expiry_dates g net (length before + S fuel) no_effects
    = (Ok tt, Effects [Lit "Error fetching data: " :: str_exn e] [] urls []).
Proof.
  intros Hrange Hleads Hok Hraise.
  destruct (valid_range_parsed g Hrange) as (a & b & Ha & Hb).
  destruct (while_next_url_leads g net a b Ha Hb _ _ _ Hleads (first_page_url_truthy g) Hok
              (S fuel) ∅ no_effects) as (urls & Hlen & Htruthy & Hrun).
  exists (urls ++ [url']). split; [rewrite length_app; simpl; lia|].
  unfold get_expiry_dates, try_except, bind.
  rewrite Hrun, (Hraise _ _ _ Htruthy), with_requests_app. reflexivity.
Qed.

(** X6. [get_expiry_dates] never raises, whatever the network does: it
    returns [None] having printed either its report, whose dates all lie
    in the range, or a single line, which is one of its two error lines
    and no date; while it is still looping it has printed nothing. *)
Theorem get_expiry_dates_never_raises g net fuel :
  let out := get_expiry_dates g net fuel no_effects in
  (∀ e, out.1 ≠ Raise e) ∧
  (out.1 = OutOfFuel → stdout out.2 = []) ∧
  (out.1 = Ok tt →
     (∃ dates, stdout out.2 = report g dates ∧ ∀ s, s ∈ dates → in_range g s = true)
     ∨ (∃ line, stdout out.2 = [line] ∧
          ((∃ status, line = [Lit "Error: API returned status "; Fmt status])
           ∨ (∃ e, line = Lit "Error fetching data: " :: str_exn e)) ∧
          ∀ date, line ≠ [Fmt (JStr date)])).
Proof.
  cbn zeta.
  destruct (get_expiry_dates_every_run g net fuel)
    as [[Hok [Hreport|[(status & Hline)|(e & Hline)]]]|[Hfuel Hnone]].
  - split_and!; [intros e; by rewrite Hok|by rewrite Hok|]. intros _. by left.
  - split_and!; [intros e; by rewrite Hok|by rewrite Hok|]. intros _. right.
    eexists. split_and!; [exact Hline|left; eauto|done].
  - split_and!; [intros e'; by rewrite Hok|by rewrite Hok|]. intros _. right.
    eexists. split_and!; [exact Hline|right; eauto|done].
  - split_and!; [intros e; by rewrite Hfuel|done|]. by rewrite Hfuel.
Qed.

Lemma get_expiry_dates_never_raises_witness :
  let out := get_expiry_dates scenario_globals (two_pages scenario_page1 error_page) 3
               no_effects in
  (∃ dates, stdout out.2 = report scenario_globals dates ∧
            ∀ s, s ∈ dates → in_range scenario_globals s = true)
  ∨ (∃ line, stdout out.2 = [line] ∧
       ((∃ status, line = [Lit "Error: API returned status "; Fmt status])
        ∨ (∃ e, line = Lit "Error fetching data: " :: str_exn e)) ∧
       ∀ date, line ≠ [Fmt (JStr date)]).
Proof.
  pose proof (get_expiry_dates_never_raises scenario_globals
                (two_pages scenario_page1 error_page) 3) as H.
  cbn zeta in *. destruct H as (_ & _ & H). apply H. vm_compute. reflexivity.
Defined.

(** The run of the witness: the second page reports an error, and the
    date of the first page is not printed. *)
Example error_after_one_page :
  stdout (get_expiry_dates scenario_globals (two_pages scenario_page1 error_page) 3
            no_effects).2
  = [[Lit "Error: API returned status "; Fmt (JStr "ERROR")]].
Proof. vm_compute. reflexivity. Qed.

(** X7. When the request for a page raises, after any number of pages
    that reported OK, the fetch ends there: one request per page up to the
    failing one, a single line [Error fetching data: ...] with the text of
    the exception, and none of the dates collected so far. *)
Theorem get_expiry_dates_transport_failure g net before url' e fuel :
  valid_range g = true →
  leads_to g net (first_page_url g) before url' →
  forallb ok_page before = true →
  net url' = inl e →
  let out := get_expiry_dates g net (length before + S fuel) no_effects in
  out.1 = Ok tt ∧
  stdout out.2 = [Lit "Error fetching data: " :: str_exn e] ∧
  length (requests out.2) = S (length before).
Proof.
  intros Hrange Hleads Hok Hnet.
  destruct (get_expiry_dates_aborts g net before url' e fuel Hrange Hleads Hok)
    as (urls & Hlen & Hrun).
  { intros f acc w Htruthy. by apply while_next_url_transport. }
  cbn zeta. by rewrite Hrun.
Qed.

Lemma second_page_leads g p1 :
  truthy (cursor p1) = true →
  leads_to g (second_page_fails p1) (first_page_url g) [p1] (next_page_url g (cursor p1)).
Proof. intros H. apply leads_on; [done..|]. apply leads_here. Qed.

Lemma get_expiry_dates_transport_failure_witness :
  let out := get_expiry_dates key_globals (second_page_fails june_march) 2 no_effects in
  out.1 = Ok tt ∧
  stdout out.2 = [Lit "Error fetching data: " :: str_exn connection_reset] ∧
  length (requests out.2) = 2.
Proof.
  apply (get_expiry_dates_transport_failure key_globals (second_page_fails june_march)
           [june_march] (next_page_url key_globals (cursor june_march)) connection_reset 0).
  - reflexivity.
  - apply second_page_leads. reflexivity.
  - reflexivity.
  - reflexivity.
Defined.

(** X8. One record whose [expiration_date] is a non-empty string that is
    no date in the format discards the whole fetch: whatever the other
    records of that page are, and after any number of pages that reported
    OK, the function prints a single error line and none of the dates. *)
Theorem get_expiry_dates_malformed_date g net before url' m records fuel :
  valid_range g = true →
  leads_to g net (first_page_url g) before url' →
  forallb ok_page before = true →
  net url' = inr (JObj m) →
  m !! "status" = Some (JStr "OK") →
  m !! "results" = Some (JList records) →
  existsb malformed_record records = true →
  let out := get_expiry_dates g net (length before + S fuel) no_effects in
  out.1 = Ok tt ∧
  (∃ e, stdout out.2 = [Lit "Error fetching data: " :: str_exn e]) ∧
  length (requests out.2) = S (length before).
Proof.
  intros Hrange Hleads Hok Hnet Hstatus Hresults Hbad.
  destruct (valid_range_parsed g Hrange) as (a & b & Ha & Hb).
  destruct (while_next_url_leads g net a b Ha Hb _ _ _ Hleads (first_page_url_truthy g) Hok
              (S fuel) ∅ no_effects) as (urls & Hlen & Htruthy & Hrun).
  destruct (while_next_url_malformed g net a b Ha Hb fuel url' m records
              (∅ ∪ list_to_set (dates_in_range g before)) (with_requests no_effects urls)
              Htruthy Hnet Hstatus Hresults Hbad) as (e & Hraise).
  cbn zeta. unfold get_expiry_dates, try_except, bind.
  rewrite Hrun, Hraise. simpl. split_and!; [done|by exists e|].
  rewrite length_app. simpl. lia.
Qed.

Lemma get_expiry_dates_malformed_date_witness :
  let out := get_expiry_dates key_globals (two_pages june_march page_with_bad_date) 2
               no_effects in
  out.1 = Ok tt ∧
  (∃ e, stdout out.2 = [Lit "Error fetching data: " :: str_exn e]) ∧
  length (requests out.2) = 2.
Proof.
  apply (get_expiry_dates_malformed_date key_globals (two_pages june_march page_with_bad_date)
           [june_march] (next_page_url key_globals (cursor june_march))
           (<["status" := JStr "OK"]>
              (<["results" := JList [record_with_date "2025-03-21";
                                     record_with_date "21/03/2025"]]>
                 {[ "next_url" := JNull ]}))
           [record_with_date "2025-03-21"; record_with_date "21/03/2025"] 0).
  - reflexivity.
  - apply leads_on; [reflexivity..|]. apply leads_here.
  - reflexivity.
  - reflexivity.
  - reflexivity.
  - reflexivity.
  - reflexivity.
Defined.

(** ** get_expiry_dates: the ends of the range and the order of the report *)

Lemma datetime_le_refl d : datetime_le d d = true.
Proof.
  unfold datetime_le. rewrite !Nat.ltb_irrefl. apply Nat.leb_refl.
Qed.

Lemma one_page_chain g p url :
  truthy (cursor p) = false → chain g (one_page p) url [p].
Proof. intros H. by apply chain_last. Qed.

(** [strptime] reads every decimal digit of Unicode where the format has
    [\d]: a year written with an Arabic-Indic two is a date, and the record
    is no malformed one. *)
Example unicode_year_is_a_date :
  parse_date arabic_indic_year = Some (Datetime 2025 3 21) ∧
  malformed_record (record_with_date arabic_indic_year) = false.
Proof. split; vm_compute; reflexivity. Qed.

(** X9. The range is closed at both ends: on a chain of pages that report
    OK, a record dated on the day of START_DATE or on the day of END_DATE
    is printed (START_DATE not being after END_DATE). *)
Theorem get_expiry_dates_keeps_bounds g net pages fuel a b record s d :
  parse_date (START_DATE g) = Some a →
  parse_date (END_DATE g) = Some b →
  datetime_le a b = true →
  chain g net (first_page_url g) pages →
  forallb ok_page pages = true →
  length pages ≤ fuel →
  record ∈ concat (page_results <$> pages) →
  record_date record = Some s →
  parse_date s = Some d →
  d = a ∨ d = b →
  ∃ dates, stdout (get_expiry_dates g net fuel no_effects).2 = report g dates ∧ s ∈ dates.
Proof.
  intros Ha Hb Hab Hchain Hok Hfuel Hrecord Hdate Hd Hbound.
  assert (valid_range g = true) as Hrange.
  { unfold valid_range. apply bool_decide_eq_true. rewrite Ha, Hb. eauto. }
  destruct (get_expiry_dates_chain g net pages fuel Hrange Hchain Hok Hfuel)
    as (urls & _ & Hrun).
  exists (expected_dates g pages). rewrite Hrun. split; [done|].
  apply elem_of_expected_dates. split.
  - unfold chain_dates. apply list_elem_of_omap. eauto.
  - rewrite (in_range_parsed g a b Ha Hb), Hd.
    destruct Hbound as [-> | ->]; by rewrite datetime_le_refl, ?Hab.
Qed.

Lemma get_expiry_dates_keeps_bounds_witness :
  ∃ dates,
    stdout (get_expiry_dates key_globals (one_page page_of_bounds) 1 no_effects).2
    = report key_globals dates ∧ "2025-12-19" ∈ dates.
Proof.
  apply (get_expiry_dates_keeps_bounds key_globals (one_page page_of_bounds) [page_of_bounds] 1
           (Datetime 2025 1 24) (Datetime 2025 12 19) (record_with_date "2025-12-19")
           "2025-12-19" (Datetime 2025 12 19)).
  - reflexivity.
  - reflexivity.
  - reflexivity.
  - apply one_page_chain. reflexivity.
  - reflexivity.
  - simpl. lia.
  - simpl. left.
  - reflexivity.
  - reflexivity.
  - by right.
Defined.

Example day_before_start_is_dropped :
  stdout (get_expiry_dates key_globals (one_page page_of_bounds) 1 no_effects).2
  = report key_globals ["2025-01-24"; "2025-12-19"].
Proof. by vm_compute. Qed.

(** *** Text order and date order *)

Lemma digit_value c n : digit c = Some n → n < 10 ∧ nat_of_ascii c = 48 + n.
Proof.
  unfold digit. destruct (48 <=? nat_of_ascii c) eqn:Hlo; [|done].
  destruct (nat_of_ascii c <=? 57) eqn:Hhi; [|done].
  apply Nat.leb_le in Hlo, Hhi. intros [= <-]. lia.
Qed.

Lemma digit_char c n :
  digit c = Some n →
  c ∈ ["0"; "1"; "2"; "3"; "4"; "5"; "6"; "7"; "8"; "9"]%char.
Proof.
  intros [Hn Hc]%digit_value.
  rewrite <- (ascii_nat_embedding c), Hc.
  do 10 (destruct n as [|n]; [set_solver|]). lia.
Qed.

Lemma digit_compare c1 c2 n1 n2 :
  digit c1 = Some n1 → digit c2 = Some n2 → Ascii.compare c1 c2 = (n1 ?= n2).
Proof.
  intros [_ H1]%digit_value [_ H2]%digit_value.
  unfold Ascii.compare. rewrite N2Nat.inj_compare.
  change (N.to_nat (N_of_ascii c1)) with (nat_of_ascii c1).
  change (N.to_nat (N_of_ascii c2)) with (nat_of_ascii c2).
  rewrite H1, H2.
  destruct (Nat.compare_spec n1 n2) as [->|?|?].
  - apply Nat.compare_refl.
  - apply Nat.compare_lt_iff. lia.
  - apply Nat.compare_gt_iff. lia.
Qed.

Ltac each_digit H :=
  apply digit_char in H;
  repeat (apply elem_of_cons in H as [->|H]); [..|by apply elem_of_nil in H].

(** An ASCII digit is a decimal digit of Unicode, with the same value. *)
Lemma unicode_digit_ascii c n rest :
  digit c = Some n → unicode_digit (c :: rest) = Some (n, rest).
Proof.
  intros H. pose proof H as G.
  each_digit G; vm_compute in H; injection H as <-; reflexivity.
Qed.

Lemma parse_m_dash_padded c1 c0 n1 n0 rest m rest' :
  digit c1 = Some n1 → digit c0 = Some n0 →
  parse_m_dash (c1 :: c0 :: "-"%char :: rest) = Some (m, rest') →
  m = 10 * n1 + n0 ∧ rest' = rest.
Proof.
  intros H1 H0. pose proof H1 as G1. pose proof H0 as G0.
  each_digit G1; each_digit G0;
    vm_compute in H1, H0; injection H1 as <-; injection H0 as <-;
    simpl; intros [= <- <-] || discriminate; done.
Qed.

Lemma parse_d_padded c1 c0 n1 n0 d :
  digit c1 = Some n1 → digit c0 = Some n0 →
  parse_d [c1; c0] = Some (d, []) →
  d = 10 * n1 + n0.
Proof.
  intros H1 H0. pose proof H1 as G1. pose proof H0 as G0.
  each_digit G1; each_digit G0;
    vm_compute in H1, H0; injection H1 as <-; injection H0 as <-;
    vm_compute; intros [= <-] || discriminate; done.
Qed.

Lemma zero_padded_shape s :
  zero_padded s = true →
  ∃ y3 y2 y1 y0 m1 m0 d1 d0,
    list_ascii_of_string s = [y3; y2; y1; y0; "-"; m1; m0; "-"; d1; d0]%char ∧
    Forall (λ c, is_Some (digit c)) [y3; y2; y1; y0; m1; m0; d1; d0].
Proof.
  unfold zero_padded.
  destruct (list_ascii_of_string s)
    as [|y3 [|y2 [|y1 [|y0 [|c4 [|m1 [|m0 [|c7 [|d1 [|d0 [|? ?]]]]]]]]]]]; try done.
  intros [[H4 H7]%andb_true_iff Hdigits]%andb_true_iff.
  apply Ascii.eqb_eq in H4 as ->. apply Ascii.eqb_eq in H7 as ->.
  exists y3, y2, y1, y0, m1, m0, d1, d0. split; [done|].
  apply Is_true_true, forallb_True in Hdigits. eapply Forall_impl; [exact Hdigits|].
  intros c Hc. by apply bool_decide_unpack in Hc.
Qed.

(** The fields a zero-padded text parses to. *)
Lemma parse_date_padded s dt y3 y2 y1 y0 m1 m0 d1 d0 n3 n2 n1 n0 k1 k0 j1 j0 :
  list_ascii_of_string s = [y3; y2; y1; y0; "-"; m1; m0; "-"; d1; d0]%char →
  digit y3 = Some n3 → digit y2 = Some n2 → digit y1 = Some n1 → digit y0 = Some n0 →
  digit m1 = Some k1 → digit m0 = Some k0 → digit d1 = Some j1 → digit d0 = Some j0 →
  parse_date s = Some dt →
  dt = Datetime (1000 * n3 + 100 * n2 + 10 * n1 + n0) (10 * k1 + k0) (10 * j1 + j0).
Proof.
  intros Hs H3 H2 H1 H0 Hm1 Hm0 Hd1 Hd0. unfold parse_date. rewrite Hs.
  unfold parse_Y.
  rewrite (unicode_digit_ascii _ _ _ H3), (unicode_digit_ascii _ _ _ H2),
    (unicode_digit_ascii _ _ _ H1), (unicode_digit_ascii _ _ _ H0).
  destruct (parse_m_dash [m1; m0; "-"%char; d1; d0]) as [[m rest]|] eqn:Hm; [|done].
  destruct (parse_m_dash_padded _ _ _ _ _ _ _ Hm1 Hm0 Hm) as [-> ->].
  destruct (parse_d [d1; d0]) as [[d [|? ?]]|] eqn:Hd; try done.
  rewrite (parse_d_padded _ _ _ _ _ Hd1 Hd0 Hd).
  destruct (_ && _); [|done]. by intros [= <-].
Qed.

Lemma string_of_chars s l : list_ascii_of_string s = l → s = string_of_list_ascii l.
Proof. intros <-. by rewrite string_of_list_ascii_of_string. Qed.

(** Between zero-padded dates the order of the texts is the order of the
    days. *)
Lemma zero_padded_le s s' dt dt' :
  zero_padded s = true → zero_padded s' = true →
  parse_date s = Some dt → parse_date s' = Some dt' →
  String.le s s' → datetime_le dt dt' = true.
Proof.
  intros (y3 & y2 & y1 & y0 & m1 & m0 & d1 & d0 & Hs & Hdigits)%zero_padded_shape
         (y3' & y2' & y1' & y0' & m1' & m0' & d1' & d0' & Hs' & Hdigits')%zero_padded_shape
         Hdt Hdt' Hle.
  repeat (apply Forall_cons in Hdigits as [[? ?] Hdigits]).
  repeat (apply Forall_cons in Hdigits' as [[? ?] Hdigits']).
  rewrite (parse_date_padded s dt _ _ _ _ _ _ _ _ _ _ _ _ _ _ _ _ Hs
             ltac:(eassumption) ltac:(eassumption) ltac:(eassumption) ltac:(eassumption)
             ltac:(eassumption) ltac:(eassumption) ltac:(eassumption) ltac:(eassumption) Hdt).
  rewrite (parse_date_padded s' dt' _ _ _ _ _ _ _ _ _ _ _ _ _ _ _ _ Hs'
             ltac:(eassumption) ltac:(eassumption) ltac:(eassumption) ltac:(eassumption)
             ltac:(eassumption) ltac:(eassumption) ltac:(eassumption) ltac:(eassumption) Hdt').
  unfold String.le, String.leb in Hle.
  rewrite (string_of_chars _ _ Hs), (string_of_chars _ _ Hs') in Hle.
  cbn [string_of_list_ascii String.compare] in Hle.
  repeat match goal with
         | H1 : digit ?c = Some ?n, H2 : digit ?c' = Some ?n' |- _ =>
             lazymatch type of Hle with
             | context [Ascii.compare c c'] =>
                 rewrite (digit_compare c c' n n' H1 H2) in Hle
             end
         end.
  change (Ascii.compare "-" "-") with Eq in Hle. cbv iota in Hle.
  repeat match goal with
         | H : digit _ = Some ?n |- _ => apply digit_value in H as [? _]
         end.
  unfold datetime_le. cbn [year month day].
  repeat match type of Hle with
         | context [?n ?= ?n'] => destruct (Nat.compare_spec n n'); [subst| |]
         end;
    try (by destruct Hle);
    repeat match goal with
           | |- context [?x <? ?y] => destruct (Nat.ltb_spec x y)
           end;
    try done; try lia; apply Nat.leb_le; lia.
Qed.

Lemma StronglySorted_on {A} (R R' : relation A) (l : list A) :
  StronglySorted R l →
  (∀ x y, x ∈ l → y ∈ l → R x y → R' x y) →
  StronglySorted R' l.
Proof.
  induction 1 as [|x l Hsorted IH Hall]; intros Himpl; constructor.
  - apply IH. intros y z Hy Hz. apply Himpl; by right.
  - rewrite Forall_forall in Hall |- *. intros y Hy.
    apply Himpl; [by left|by right|by apply Hall].
Qed.

(** X10. The report is sorted as text. When the dates of the range are
    all written [YYYY-MM-DD] with zero-padded fields, this is the order of
    the calendar: no printed date is after the one printed below it. *)
Theorem get_expiry_dates_chronological g net pages fuel :
  valid_range g = true →
  chain g net (first_page_url g) pages →
  forallb ok_page pages = true →
  length pages ≤ fuel →
  (∀ s, s ∈ chain_dates pages → in_range g s = true → zero_padded s = true) →
  ∃ dates,
    stdout (get_expiry_dates g net fuel no_effects).2 = report g dates ∧
    StronglySorted not_after dates.
Proof.
  intros Hrange Hchain Hok Hfuel Hpadded.
  destruct (get_expiry_dates_chain g net pages fuel Hrange Hchain Hok Hfuel)
    as (urls & _ & Hrun).
  exists (expected_dates g pages). rewrite Hrun. split; [done|].
  apply (StronglySorted_on String.le); [apply expected_dates_sorted|].
  intros s s' [Hs Hin]%elem_of_expected_dates [Hs' Hin']%elem_of_expected_dates Hle.
  pose proof (Hpadded s Hs Hin) as Hp. pose proof (Hpadded s' Hs' Hin') as Hp'.
  apply in_range_true in Hin as (_ & d & _ & _ & Hd & _).
  apply in_range_true in Hin' as (_ & d' & _ & _ & Hd' & _).
  exists d, d'. split_and!; [done..|]. exact (zero_padded_le s s' d d' Hp Hp' Hd Hd' Hle).
Qed.

Lemma get_expiry_dates_chronological_witness :
  ∃ dates,
    stdout (get_expiry_dates key_globals (two_pages june_march march_again) 2 no_effects).2
    = report key_globals dates ∧
    StronglySorted not_after dates.
Proof.
  apply (get_expiry_dates_chronological key_globals (two_pages june_march march_again)
           [june_march; march_again] 2).
  - reflexivity.
  - apply two_pages_chain; reflexivity.
  - reflexivity.
  - simpl. lia.
  - intros s Hs _. change (s ∈ ["2025-06-20"; "2025-03-21"; "2025-03-21"]) in Hs.
    repeat (apply elem_of_cons in Hs as [->|Hs]); [reflexivity..|by apply elem_of_nil in Hs].
Defined.

(** Without the padding the order of the texts is not the order of the
    days: October is printed above February. *)
Example unpadded_dates_out_of_order :
  stdout (get_expiry_dates key_globals (one_page unpadded_page) 1 no_effects).2
  = report key_globals ["2025-10-1"; "2025-2-1"].
Proof. by vm_compute. Qed.

(** ** The documented pagination loop: status and failures *)

(** X11. The documented loop never looks at [status]: when the chain ends
    in a page that reports an error, it returns the results gathered from
    the pages before it (and whatever results the error page holds) as if
    the fetch had completed, with one request per page and no exception. *)
Theorem pagination_loop_ignores_status g net url before bad fuel w :
  chain g net url (before ++ [bad]) →
  bad_status_page bad = true →
  forallb has_result_list (before ++ [bad]) = true →
  length before < fuel →
  ∃ urls, length urls = S (length before) ∧
    pagination_loop (API_KEY g) net fuel url [] w =
    (Ok (concat (page_results <$> before) ++ page_results bad), with_requests w urls).
Proof.
  intros Hchain _ Hshape Hfuel.
  destruct (pagination_loop_concat g net url (before ++ [bad]) Hchain Hshape fuel [] w)
    as (urls & Hlen & Hrun).
  { rewrite length_app. simpl. lia. }
  exists urls. split.
  - rewrite Hlen, length_app. simpl. lia.
  - rewrite Hrun. rewrite fmap_app, concat_app. simpl. by rewrite app_nil_r.
Qed.

Lemma pagination_loop_ignores_status_witness :
  ∃ urls, length urls = 2 ∧
    pagination_loop (API_KEY key_globals) (two_pages june_march error_page) 2
      (first_page_url key_globals) [] no_effects =
    (Ok (concat (page_results <$> [june_march]) ++ page_results error_page),
     with_requests no_effects urls).
Proof.
  apply (pagination_loop_ignores_status key_globals (two_pages june_march error_page)
           (first_page_url key_globals) [june_march] error_page 2 no_effects).
  - apply two_pages_chain; reflexivity.
  - reflexivity.
  - reflexivity.
  - simpl. lia.
Defined.

Lemma pagination_loop_leads g net :
  ∀ url before url', leads_to g net url before url' →
  forallb has_result_list before = true →
  ∀ fuel all_results w,
  ∃ urls, length urls = length before ∧
    pagination_loop (API_KEY g) net (length before + fuel) url all_results w =
    pagination_loop (API_KEY g) net fuel url'
      (all_results ++ concat (page_results <$> before)) (with_requests w urls).
Proof.
  intros url before url' Hleads.
  induction Hleads as [url|url data before url' Hnet Hcur Hrest IH];
    intros Hshape fuel acc w.
  - exists []. split; [done|]. rewrite with_requests_nil. simpl. by rewrite app_nil_r.
  - simpl in Hshape. apply andb_true_iff in Hshape as [Hdata Hpages].
    destruct (IH Hpages fuel (acc ++ page_results data) (with_requests w [url]))
      as (urls & Hlen & Hrun).
    exists (url :: urls). split; [simpl; by rewrite Hlen|].
    cbn [length Nat.add pagination_loop].
    run (get_json_ok net url data w Hnet).
    destruct data as [| | | | |m]; try discriminate. simpl in Hdata.
    unfold cursor in *. simpl in Hcur.
    assert ((let* results := get (JObj m) "results" (JList []) in iter results)
              (with_requests w [url])
            = (Ok (page_results (JObj m)), with_requests w [url])) as Hresults.
    { unfold bind, page_results. simpl.
      destruct (m !! "results") as [[| | | |l|]|]; try discriminate; done. }
    unfold bind at 1. unfold bind at 1. unfold bind in Hresults.
    destruct (get (JObj m) "results" (JList []) (with_requests w [url]))
      as [[results| |] w1] eqn:Hget; try discriminate.
    rewrite Hresults.
    run (get_dict m "next_url" JNull (with_requests w [url])). rewrite Hcur. cbn [negb].
    unfold next_page_url, cursor in Hrun. simpl in Hrun.
    rewrite Hrun, with_requests_app, <- app_assoc. simpl. reflexivity.
Qed.

(** X12. The documented loop has no handler: when the request for a page
    raises, after any number of pages with results, the exception leaves
    the loop as it is and the results gathered so far are lost. *)
Theorem pagination_loop_raises g net url before url' e fuel w :
  leads_to g net url before url' →
  forallb has_result_list before = true →
  net url' = inl e →
  (pagination_loop (API_KEY g) net (length before + S fuel) url [] w).1 = Raise e.
Proof.
  intros Hleads Hshape Hnet.
  destruct (pagination_loop_leads g net url before url' Hleads Hshape (S fuel) [] w)
    as (urls & _ & Hrun).
  rewrite Hrun. cbn [pagination_loop].
  rewrite (bind_raised _ _ _ e (with_requests (with_requests w urls) [url'])); [done|].
  unfold get_json, bind, log_request, lift. by rewrite Hnet.
Qed.

Lemma pagination_loop_raises_witness :
  (pagination_loop (API_KEY key_globals) (second_page_fails june_march) 2
     (first_page_url key_globals) [] no_effects).1 = Raise connection_reset.
Proof.
  apply (pagination_loop_raises key_globals (second_page_fails june_march)
           (first_page_url key_globals) [june_march]
           (next_page_url key_globals (cursor june_march)) connection_reset 0 no_effects).
  - apply second_page_leads. reflexivity.
  - reflexivity.
  - reflexivity.
Defined.

(** ** on_message: errors *)

Lemma dispatch_not_a_dict item w :
  is_dict item = false → dispatch item w = (Raise (Builtin AttributeError), w).
Proof. by destruct item. Qed.

Lemma for_each_dispatch_stops (before : list (gmap string json)) bad after w :
  is_dict bad = false →
  for_each (λ _ item, dispatch item) ((JObj <$> before) ++ bad :: after) tt w
  = (Raise (Builtin AttributeError),
     with_stdout w (concat (handler_output ∘ classify <$> before))).
Proof.
  intros Hbad. revert w. induction before as [|r rs IH]; intros w.
  - simpl. rewrite with_stdout_nil. apply bind_raised. by apply dispatch_not_a_dict.
  - rewrite fmap_cons. cbn [app for_each fmap list_fmap concat].
    run (dispatch_classify r w). rewrite IH. by rewrite with_stdout_app.
Qed.

Lemma for_each_dispatch_outcome items w :
  ∃ r w', for_each (λ _ item, dispatch item) items tt w = (r, w') ∧ r ≠ OutOfFuel.
Proof.
  revert w. induction items as [|item items IH]; intros w.
  - by exists (Ok tt), w.
  - cbn [for_each]. destruct (is_dict item) eqn:Hdict.
    + destruct item as [| | | | |m]; try discriminate.
      run (dispatch_classify m w). apply IH.
    + exists (Raise (Builtin AttributeError)), w. split; [|done].
      apply bind_raised. by apply dispatch_not_a_dict.
Qed.

(** X13. [on_message] never raises, whatever the message is: text that is
    no JSON, a frame that is no list, a list with items that are no
    records. It always returns, and a frame that is no list is only
    echoed. *)
Theorem on_message_never_raises decoded w :
  (on_message decoded w).1 = Ok tt ∧
  (∀ data, decoded = inr data → (∀ items, data ≠ JList items) →
     (on_message decoded w).2 = with_stdout w [[Lit "Received: "; Fmt data]]).
Proof.
  split.
  - unfold on_message, try_except, bind, lift.
    destruct decoded as [e|data]; [done|]. cbn [ret print].
    destruct data as [| | | |items|]; try done.
    match goal with
    | |- context [for_each ?f items tt ?w0] =>
        destruct (for_each_dispatch_outcome items w0) as (r & w' & -> & Hr)
    end.
    by destruct r as [[]| |].
  - intros data -> Hlist. unfold on_message, try_except, bind, lift. cbn [ret print].
    destruct data as [| | | |items|]; try done. by destruct (Hlist items).
Qed.

Lemma on_message_never_raises_witness :
  (on_message (inr (JStr "pong")) no_effects).1 = Ok tt ∧
  (on_message (inr (JStr "pong")) no_effects).2
  = with_stdout no_effects [[Lit "Received: "; Fmt (JStr "pong")]].
Proof.
  destruct (on_message_never_raises (inr (JStr "pong")) no_effects) as [Hreturns Hecho].
  split; [exact Hreturns|]. apply (Hecho (JStr "pong")); [reflexivity|].
  intros items H. discriminate H.
Defined.

(** X14. An item that is no dict ends the handling of its frame: the
    records before it are handled, an error line is printed, and the
    records after it are not looked at, whatever they are. *)
Theorem on_message_drops_rest (before : list (gmap string json)) bad after w :
  is_dict bad = false →
  on_message (inr (JList ((JObj <$> before) ++ bad :: after))) w
  = (Ok tt,
     with_stdout w
       ([Lit "Received: "; Fmt (JList ((JObj <$> before) ++ bad :: after))]
        :: concat (handler_output ∘ classify <$> before)
        ++ [[Lit "Error processing message: "; ExcText AttributeError]])).
Proof.
  intros Hbad. unfold on_message, try_except, bind. cbn [lift ret print].
  rewrite (for_each_dispatch_stops before bad after _ Hbad).
  unfold with_stdout, print. simpl. by rewrite <- !app_assoc.
Qed.

Lemma on_message_drops_rest_witness :
  on_message (inr (JList ((JObj <$> [aapl_trade]) ++ JNull :: [JObj aapl_trade]))) no_effects
  = (Ok tt,
     with_stdout no_effects
       ([Lit "Received: ";
         Fmt (JList ((JObj <$> [aapl_trade]) ++ JNull :: [JObj aapl_trade]))]
        :: concat (handler_output ∘ classify <$> [aapl_trade])
        ++ [[Lit "Error processing message: "; ExcText AttributeError]])).
Proof.
  apply (on_message_drops_rest [aapl_trade] JNull [JObj aapl_trade] no_effects).
  reflexivity.
Defined.

(** ** The price of an option snapshot: fields that are present and null *)

(** X15. The defaults of the documented policy cover a missing field only.
    A [last_quote] that is present but no dict (null, say) raises
    [AttributeError], and a [bid] that is present but no number raises
    [TypeError]; in neither case does the policy fall back to the last
    trade. *)
Theorem option_price_present_but_null (snapshot : gmap string json) w :
  (∀ v, snapshot !! "last_quote" = Some v → is_dict v = false →
        option_price (JObj snapshot) w = (Raise (Builtin AttributeError), w)) ∧
  (∀ quote v, snapshot !! "last_quote" = Some (JObj quote) →
        quote !! "bid" = Some v → is_number v = false →
        option_price (JObj snapshot) w = (Raise (Builtin TypeError), w)).
Proof.
  split.
  - intros v Hquote Hdict. unfold option_price.
    run (get_dict snapshot "last_quote" (JObj ∅) w). rewrite Hquote. simpl.
    apply bind_raised. by destruct v.
  - intros quote v Hquote Hbid Hnumber. unfold option_price.
    run (get_dict snapshot "last_quote" (JObj ∅) w). rewrite Hquote. simpl.
    run (get_dict quote "bid" (JNum (Int 0)) w). rewrite Hbid. simpl.
    run (get_dict quote "ask" (JNum (Int 0)) w).
    apply bind_raised. unfold gt0. by destruct v.
Qed.

Lemma option_price_present_but_null_witness :
  option_price (JObj null_quote_snapshot) no_effects
  = (Raise (Builtin AttributeError), no_effects) ∧
  option_price (JObj null_bid_snapshot) no_effects
  = (Raise (Builtin TypeError), no_effects).
Proof.
  destruct (option_price_present_but_null null_quote_snapshot no_effects) as [Hquote _].
  destruct (option_price_present_but_null null_bid_snapshot no_effects) as [_ Hbid].
  split.
  - apply (Hquote JNull); reflexivity.
  - apply (Hbid (<["bid" := JNull]> {[ "ask" := JNum (Float float_1_45) ]}) JNull);
      reflexivity.
Defined.

(** ** get_option_ticker: what it raises and what it leaves alone *)



(** X16. [get_option_ticker] prints nothing and sends nothing by itself.
    A string it returns is the ticker of the first contract listed. An
    exception that leaves it is a [ValueError], a [RuntimeError] whose text
    starts with "Error fetching option contract: ", or whatever the
    constructor of the SDK's client raised, which is not wrapped. *)
Theorem get_option_ticker_outcomes env underlying expiration strike option_type api_key w :
  ∃ r, get_option_ticker env underlying expiration strike option_type api_key w = (r, w) ∧
    match r with
    | Ok t =>
        ∃ key client first rest,
          resolved_key env api_key = Some key ∧ new_RESTClient env key = inr client ∧
          client (Query underlying expiration strike (lower option_type) 1)
          = inr (first :: rest) ∧
          t = ticker first
    | Raise e =>
        (∃ msg, e = Raised ValueError msg) ∨
        (∃ msg, e = Raised RuntimeError (Lit "Error fetching option contract: " :: msg)) ∨
        (∃ key, resolved_key env api_key = Some key ∧ new_RESTClient env key = inl e)
    | OutOfFuel => False
    end.
Proof.
  rewrite get_option_ticker_unfold.
  destruct (valid_option_type option_type); simpl;
    [|eexists; split; [done|]; simpl; eauto].
  destruct (resolved_key env api_key) as [key|];
    [|eexists; split; [done|]; simpl; eauto].
  destruct (new_RESTClient env key) as [e|client] eqn:Hclient.
  { eexists; split; [done|]. simpl. right; right. eauto. }
  destruct (client _) as [e|[|first rest]] eqn:Hlist.
  - eexists; split; [done|]. simpl. right; left. eauto.
  - eexists; split; [done|]. simpl. right; left. eauto.
  - eexists; split; [done|]. simpl. exists key, client, first, rest. done.
Qed.



(** With two contracts listed the two spellings give the same ticker;
    with none, two errors that differ in the spelling they quote. *)
Example get_option_ticker_spellings :
  get_option_ticker strict_sdk "SPY" "2025-01-15" (Int 500) "CALL" (Some "KEY") no_effects
  = (Ok "O:SPY250115C00500000", no_effects) ∧
  get_option_ticker strict_sdk "SPY" "2025-01-15" (Int 500) "call" (Some "KEY") no_effects
  = (Ok "O:SPY250115C00500000", no_effects) ∧
  get_option_ticker empty_listing "SPY" "2025-01-15" (Int 500) "CALL" None no_effects
  ≠ get_option_ticker empty_listing "SPY" "2025-01-15" (Int 500) "call" None no_effects.
Proof. split_and!; [reflexivity|reflexivity|discriminate]. Qed.

(** X18. Only a key taken from the environment is checked: an empty
    POLYGON_API_KEY with no key passed raises the [ValueError] before the
    SDK is touched, while a key passed by the caller goes to the
    constructor of the client as it is, empty or not, and what the
    constructor raises leaves the function unwrapped. *)
Theorem get_option_ticker_key_check env underlying expiration strike option_type w :
  valid_option_type option_type = true →
  (environ_key env = Some EmptyString →
   get_option_ticker env underlying expiration strike option_type None w
   = (Raise (Raised ValueError
               [Lit "No API key provided and POLYGON_API_KEY not found in environment"]), w)) ∧
  (∀ key e, new_RESTClient env key = inl e →
   get_option_ticker env underlying expiration strike option_type (Some key) w
   = (Raise e, w)).
Proof.
  intros Hvalid. split.
  - intros Hkey. rewrite get_option_ticker_unfold, Hvalid. unfold resolved_key.
    by rewrite Hkey.
  - intros key e Hctor. rewrite get_option_ticker_unfold, Hvalid. simpl. by rewrite Hctor.
Qed.

Lemma get_option_ticker_key_check_witness :
  get_option_ticker strict_sdk "SPY" "2025-01-15" (Int 500) "put" None no_effects
  = (Raise (Raised ValueError
              [Lit "No API key provided and POLYGON_API_KEY not found in environment"]),
     no_effects) ∧
  get_option_ticker strict_sdk "SPY" "2025-01-15" (Int 500) "put" (Some EmptyString) no_effects
  = (Raise (Raised (OtherError "AuthError")
              [Lit "Must specify env var POLYGON_API_KEY or pass api_key in constructor"]),
     no_effects).
Proof.
  destruct (get_option_ticker_key_check strict_sdk "SPY" "2025-01-15" (Int 500) "put" no_effects
              eq_refl) as [Henv Hctor].
  split.
  - apply Henv. reflexivity.
  - apply (Hctor EmptyString). reflexivity.
Defined.

(** ** The entry point *)


(** ** fetch_financials: the URL of the request *)

Lemma quote_plus_cons a s :
  fetch_financials.quote_plus (String a s)
  = fetch_financials.quote_plus (String a EmptyString) +:+ fetch_financials.quote_plus s.
Proof.
  cbn [fetch_financials.quote_plus].
  destruct (fetch_financials.always_safe a); [done|].
  by destruct (nat_of_ascii a =? 32).
Qed.

Lemma all_chars_app P s1 s2 :
  all_chars P (s1 +:+ s2) = all_chars P s1 && all_chars P s2.
Proof. induction s1 as [|c s1 IH]; [done|]. simpl. by rewrite IH, andb_assoc. Qed.

Lemma count_char_app c s1 s2 :
  count_char c (s1 +:+ s2) = count_char c s1 + count_char c s2.
Proof. induction s1 as [|c' s1 IH]; [done|]. simpl. rewrite IH. lia. Qed.

Lemma quote_plus_one_char a :
  all_chars quoted_char (fetch_financials.quote_plus (String a EmptyString)) = true.
Proof. destruct a as [[] [] [] [] [] [] [] []]; reflexivity. Qed.

Lemma quote_plus_quoted s : all_chars quoted_char (fetch_financials.quote_plus s) = true.
Proof.
  induction s as [|a s IH]; [done|].
  by rewrite quote_plus_cons, all_chars_app, quote_plus_one_char, IH.
Qed.

Lemma count_char_absent P c s :
  all_chars P s = true → P c = false → count_char c s = 0.
Proof.
  intros Hall Hc. induction s as [|c' s IH]; [done|].
  simpl in Hall. apply andb_true_iff in Hall as [Hc' Hs]. simpl.
  rewrite (IH Hs). destruct (Ascii.eqb c c') eqn:Heq; [|done].
  apply Ascii.eqb_eq in Heq as ->. congruence.
Qed.

Lemma financials_url_query api_key :
  fetch_financials.financials_url api_key
  = [Fmt (JStr fetch_financials.BASE_URL); Lit "?";
     Fmt (JStr (fixed_parameters +:+ fetch_financials.quote_plus api_key))].
Proof. reflexivity. Qed.

Lemma unquote_plus_one_char a t :
  unquote_plus (fetch_financials.quote_plus (String a EmptyString) +:+ t)
  = String a (unquote_plus t).
Proof. destruct a as [[] [] [] [] [] [] [] []]; reflexivity. Qed.

Lemma unquote_plus_quote_plus s : unquote_plus (fetch_financials.quote_plus s) = s.
Proof.
  induction s as [|a s IH]; [done|].
  by rewrite quote_plus_cons, unquote_plus_one_char, IH.
Qed.

(** X20. Whatever the key contains, the URL [main] requests has exactly
    six parameters: its query holds five [&] and six [=], and no other
    character outside letters, digits and [_.-~+%]. A key cannot add a
    parameter or cut the query short. *)
Theorem financials_url_six_parameters api_key :
  ∃ query,
    fetch_financials.financials_url api_key
    = [Fmt (JStr fetch_financials.BASE_URL); Lit "?"; Fmt (JStr query)] ∧
    count_char "&" query = 5 ∧ count_char "=" query = 6 ∧
    ∀ c, quoted_char c = false → c ≠ "&"%char → c ≠ "="%char → count_char c query = 0.
Proof.
  exists (fixed_parameters +:+ fetch_financials.quote_plus api_key).
  split; [apply financials_url_query|].
  pose proof (quote_plus_quoted api_key) as Hquoted.
  split_and!.
  - rewrite count_char_app, (count_char_absent quoted_char "&" _ Hquoted eq_refl).
    reflexivity.
  - rewrite count_char_app, (count_char_absent quoted_char "=" _ Hquoted eq_refl).
    reflexivity.
  - intros c Hc Hamp Heq.
    apply (count_char_absent
             (λ x, quoted_char x || Ascii.eqb x "&" || Ascii.eqb x "=")).
    + rewrite all_chars_app. apply andb_true_iff. split; [reflexivity|].
      clear -Hquoted. induction (fetch_financials.quote_plus api_key) as [|x s IH]; [done|].
      simpl in *. apply andb_true_iff in Hquoted as [-> Hs]. simpl. by apply IH.
    + rewrite Hc. simpl.
      destruct (Ascii.eqb c "&") eqn:H1; [by apply Ascii.eqb_eq in H1|].
      destruct (Ascii.eqb c "=") eqn:H2; [by apply Ascii.eqb_eq in H2|]. done.
Qed.

(** X21. The key reaches the server as it is: the value of the last
    parameter of the URL, read the way a server reads a query ([+] a
    space, [%XY] a byte), is the key. *)
Theorem financials_url_carries_key api_key :
  ∃ quoted,
    fetch_financials.financials_url api_key
    = [Fmt (JStr fetch_financials.BASE_URL); Lit "?";
       Fmt (JStr (fixed_parameters +:+ quoted))] ∧
    unquote_plus quoted = api_key.
Proof.
  exists (fetch_financials.quote_plus api_key).
  split; [apply financials_url_query|apply unquote_plus_quote_plus].
Qed.

(** ** fetch_financials.main: the two streams, and where the key comes from *)


(** X23. A POLYGON_API_KEY of the process wins over the project's .env
    file, which is not read at all without python-dotenv: in both cases
    the content of the file changes nothing. This holds for an empty
    variable of the process too, so that [main] returns 1 without a
    request although the file sets a key. *)
Theorem main_key_precedence (env : fetch_financials.environment) file_key w :
  (fetch_financials.environ_api_key env ≠ None ∨
   fetch_financials.dotenv_installed env = false →
   fetch_financials.main (with_dotenv_key env file_key) w = fetch_financials.main env w) ∧
  (fetch_financials.environ_api_key env = Some EmptyString →
   (fetch_financials.main (with_dotenv_key env file_key) w).1 = Ok 1%Z ∧
   requests (fetch_financials.main (with_dotenv_key env file_key) w).2 = requests w).
Proof.
  split.
  - intros Hkey.
    assert (fetch_financials.getenv (with_dotenv_key env file_key)
            = fetch_financials.getenv env) as Hgetenv.
    { unfold fetch_financials.getenv, with_dotenv_key. simpl.
      destruct (fetch_financials.environ_api_key env) as [k|]; [done|].
      destruct Hkey as [Hkey|Hkey]; [done|]. by rewrite Hkey. }
    unfold fetch_financials.main. by rewrite Hgetenv.
  - intros Hempty. unfold fetch_financials.main, bind, fetch_financials.getenv, with_dotenv_key.
    simpl. rewrite Hempty.
    by destruct (fetch_financials.dotenv_installed env).
Qed.

Lemma main_key_precedence_witness :
  fetch_financials.main (with_dotenv_key empty_process_key None) no_effects
  = fetch_financials.main empty_process_key no_effects ∧
  (fetch_financials.main (with_dotenv_key empty_process_key (Some "OTHER")) no_effects).1
  = Ok 1%Z.
Proof.
  destruct (main_key_precedence empty_process_key None no_effects) as [Hsame _].
  destruct (main_key_precedence empty_process_key (Some "OTHER") no_effects) as [_ Hempty].
  split.
  - apply Hsame. left. discriminate.
  - apply Hempty. reflexivity.
Defined.
